(** * tabref: numbering the citations of a deluxetable

    A shallow embedding of [tabref.py] (Python 2).  Byte strings are
    [string]s, Python integers are [Z], the module-level dictionary
    [table_refs] is a [gmap string Z] threaded through the calls, the file
    system is a [gmap string string] from paths to contents, and exceptions
    are values of [exn] carried by a state-and-error monad.  What the
    interpreter and the operating system decide (the order in which a
    dictionary lists its entries, whether a file can be opened for writing,
    whether a write goes through) is part of the state as an [environment],
    over which the theorems quantify. *)

From Stdlib Require Import ZArith Ascii String List Sorted Permutation Lia.
From Stdlib Require Import DecimalString.
From stdpp Require Import base decidable option list strings gmap fin_maps sorting.

Local Open Scope Z_scope.
#[local] Set Warnings "-clear-no-such-hyp".

(** ** Python's [str] methods used by the program *)

Module Py.

(** The line feed, Python's ['\n']. *)
Definition LF : ascii := ascii_of_nat 10.
Definition nl : string := String LF EmptyString.

(** [str.isspace] on one byte in the C locale: space and [\t \n \v \f \r]. *)
Definition isspace (c : ascii) : bool :=
  let n := nat_of_ascii c in ((9 <=? n)%nat && (n <=? 13)%nat) || (n =? 32)%nat.

(** Membership of a byte in the argument of [strip(chars)]. *)
Fixpoint mem_char (c : ascii) (chars : string) : bool :=
  match chars with
  | EmptyString => false
  | String d chars' => Ascii.eqb c d || mem_char c chars'
  end.

(** [s.rstrip(...)]: drop the longest suffix whose bytes all satisfy [p]. *)
Fixpoint rstrip_by (p : ascii → bool) (s : string) : string :=
  match s with
  | EmptyString => EmptyString
  | String c s' =>
      match rstrip_by p s' with
      | EmptyString => if p c then EmptyString else String c EmptyString
      | r => String c r
      end
  end.

(** [s.lstrip(...)]: drop the longest prefix whose bytes all satisfy [p]. *)
Fixpoint lstrip_by (p : ascii → bool) (s : string) : string :=
  match s with
  | EmptyString => EmptyString
  | String c s' => if p c then lstrip_by p s' else s
  end.

Definition rstrip_chars (chars : string) : string → string :=
  rstrip_by (λ c, mem_char c chars).
Definition rstrip : string → string := rstrip_by isspace.
Definition lstrip : string → string := lstrip_by isspace.

(** [s.split(sep)] for a one-byte separator: never the empty list. *)
Fixpoint split (sep : ascii) (s : string) : list string :=
  match s with
  | EmptyString => [EmptyString]
  | String c s' =>
      if Ascii.eqb c sep then EmptyString :: split sep s'
      else match split sep s' with
           | h :: t => String c h :: t
           | [] => [String c EmptyString]
           end
  end.

(** [sep.join(l)]. *)
Fixpoint join (sep : string) (l : list string) : string :=
  match l with
  | [] => EmptyString
  | [x] => x
  | x :: l' => x +:+ sep +:+ join sep l'
  end.

(** [''.join(l)]. *)
Definition concat (l : list string) : string := foldr String.append EmptyString l.

(** [s.index(c)] for a one-byte [c]: the position of its first occurrence,
    [None] where Python raises [ValueError]. *)
Fixpoint index (c : ascii) (s : string) : option nat :=
  match s with
  | EmptyString => None
  | String d s' => if Ascii.eqb d c then Some O else S <$> index c s'
  end.

(** [s[a:b]] for indices [0 <= a] and [0 <= b]; empty when [b <= a]. *)
Definition slice (s : string) (a b : nat) : string := substring a (b - a) s.

(** [s.replace(old, new)].  With [old] empty, [new] is put before every byte
    and at the end.  Otherwise the text is scanned from the left: where [old]
    starts, [new] is emitted and the scan resumes after that occurrence
    ([skip] counts the bytes of it that are still to be passed over). *)
Fixpoint replace_scan (old new : string) (skip : nat) (s : string) : string :=
  match s with
  | EmptyString => EmptyString
  | String c s' =>
      match skip with
      | S k => replace_scan old new k s'
      | O =>
          if String.prefix old s
          then new +:+ replace_scan old new (String.length old - 1) s'
          else String c (replace_scan old new O s')
      end
  end.

Fixpoint interleave (new : string) (s : string) : string :=
  match s with
  | EmptyString => new
  | String c s' => new +:+ String c (interleave new s')
  end.

Definition replace (s old new : string) : string :=
  match old with
  | EmptyString => interleave new s
  | _ => replace_scan old new O s
  end.

(** [str(n)] for an integer. *)
Definition str (n : Z) : string := NilZero.string_of_int (Z.to_int n).

(** [sorted(l)] on strings: Python 2 compares [str] values byte by byte,
    which is [String.le]. *)
Definition sorted (l : list string) : list string := merge_sort String.le l.

(** [l.index(x)] on a list. *)
Fixpoint list_index {A} `{EqDecision A} (x : A) (l : list A) : option nat :=
  match l with
  | [] => None
  | y :: l' => if decide (y = x) then Some O else S <$> list_index x l'
  end.

(** [l[a:b]] on a list, for indices [0 <= a] and [0 <= b]. *)
Definition list_slice {A} (l : list A) (a b : nat) : list A := take (b - a) (drop a l).

(** The position meant by a Python index [i] into a sequence of length [n]
    (negative indices count from the end), [None] when out of range. *)
Definition norm_index (n : nat) (i : Z) : option nat :=
  if decide (0 ≤ i < Z.of_nat n) then Some (Z.to_nat i)
  else if decide (- Z.of_nat n ≤ i < 0) then Some (Z.to_nat (Z.of_nat n + i))
  else None.

End Py.

(** ** Exceptions, the process state and the monad of the program *)

Inductive exn := ValueError | IndexError | KeyError | TypeError | IOError | SystemExit.

Inductive outcome (A : Type) : Type :=
  | Ok (a : A)
  | Raise (e : exn).
Arguments Ok {A} a.
Arguments Raise {A} e.

#[global] Instance outcome_ret : MRet outcome := λ A a, Ok a.
#[global] Instance outcome_bind : MBind outcome := λ A B f m,
  match m with Ok a => f a | Raise e => Raise e end.

(** The order in which [dict.items()] lists the entries of a dictionary: some
    enumeration of its entries, fixed by the interpreter.  A call of
    [order_refs] asks for it once (line 134), so every order that one call
    can meet is the value of some [dict_enum] at the dictionary of that
    call. *)
Record dict_enum := DictEnum {
  enum :> gmap string Z → list (string * Z);
  enum_perm : ∀ d, enum d ≡ₚ map_to_list d
}.

(** What the program does not decide: the order of [dict.items()]; whether
    [open(path, 'w')] succeeds; whether the file at [path], holding [cur],
    takes the bytes [x] ([x] empty: the flush of [close]). *)
Record environment := Env {
  dict_order : dict_enum;
  writable : string → bool;
  accepts : string → string → string → bool
}.

(** What exists outside one call: the files by path, the standard input, the
    module-level dictionary [table_refs] (line 66), created once when the
    module is loaded, and the environment. *)
Record world := World {
  files : gmap string string;
  stdin : string;
  table_refs : gmap string Z;
  env : environment
}.

(** A command: it runs in a world and leaves a world, with a value or an
    exception. *)
Definition M (A : Type) : Type := world → outcome A * world.

#[global] Instance M_ret : MRet M := λ A a w, (Ok a, w).
#[global] Instance M_fmap : FMap M := λ A B f m w,
  match m w with
  | (Ok a, w') => (Ok (f a), w')
  | (Raise e, w') => (Raise e, w')
  end.
#[global] Instance M_bind : MBind M := λ A B f m w,
  match m w with
  | (Ok a, w') => f a w'
  | (Raise e, w') => (Raise e, w')
  end.

(** A computation that touches no state, run as a command. *)
Definition lift {A} (o : outcome A) : M A := λ w, (o, w).

(** [None] turned into the exception [e]. *)
Definition orelse {A} (o : option A) (e : exn) : outcome A :=
  match o with Some a => Ok a | None => Raise e end.

(** A Python value used as an index: an integer or a float. *)
Inductive pyval := PyInt (n : Z) | PyFloat (text : string).

(** [l[i]] for an integer [i]. *)
Definition getitem {A} (l : list A) (i : Z) : outcome A :=
  orelse (Py.norm_index (length l) i ≫= (l !!.)) IndexError.

(** [l[i] = x] for an integer [i]. *)
Definition setitem {A} (l : list A) (i : Z) (x : A) : outcome (list A) :=
  orelse ((λ n, <[n:=x]> l) <$> Py.norm_index (length l) i) IndexError.

(** [l[v]]: a float is no list index. *)
Definition getitem_val {A} (l : list A) (v : pyval) : outcome A :=
  match v with PyInt i => getitem l i | PyFloat _ => Raise TypeError end.

Definition setitem_val {A} (l : list A) (v : pyval) (x : A) : outcome (list A) :=
  match v with PyInt i => setitem l i x | PyFloat _ => Raise TypeError end.

(** [for i in n] for an integer [n]: an integer cannot be iterated. *)
Definition iter_int (n : Z) : outcome (list Z) := Raise TypeError.

(** [table_refs[r]]. *)
Definition dict_get (d : gmap string Z) (r : string) : outcome Z :=
  orelse (d !! r) KeyError.

(** ** File access *)

(** [open] takes no path with a NUL byte: it raises [TypeError]. *)
Definition has_nul (path : string) : bool := Py.mem_char "000"%char path.

(** The lines of a text, each with its line feed (the last one may lack it). *)
Fixpoint readlines (s : string) : list string :=
  match s with
  | EmptyString => []
  | String c s' =>
      if Ascii.eqb c Py.LF then Py.nl :: readlines s'
      else match readlines s' with
           | h :: t => String c h :: t
           | [] => [String c EmptyString]
           end
  end.

(** [[x for x in fileinput.input(f)]]: the lines of the file, or of the
    standard input when the name is ["-"]. *)
Definition fi_input (f : string) : M (list string) := λ w,
  if decide (f = "-")
  then (Ok (readlines (stdin w)), World (files w) "" (table_refs w) (env w))
  else if has_nul f then (Raise TypeError, w)
  else match files w !! f with
       | Some s => (Ok (readlines s), w)
       | None => (Raise IOError, w)
       end.

(** [open(path, 'w')]: [TypeError] for a path with a NUL byte, [IOError]
    where the file cannot be opened for writing; otherwise the file is created
    or emptied. *)
Definition fopen_w (path : string) : M unit := λ w,
  if has_nul path then (Raise TypeError, w)
  else if writable (env w) path
  then (Ok (), World (<[path := EmptyString]> (files w)) (stdin w) (table_refs w) (env w))
  else (Raise IOError, w).

(** [fout.write(x)] on the file opened at [path]: the bytes are added, or
    the write raises [IOError] and the file stays as far as it got. *)
Definition fwrite (path x : string) : M unit := λ w,
  let cur := default EmptyString (files w !! path) in
  if accepts (env w) path cur x
  then (Ok (), World (<[path := cur +:+ x]> (files w)) (stdin w) (table_refs w) (env w))
  else (Raise IOError, w).

(** [fout.close()]: the last flush may raise [IOError]. *)
Definition fclose (path : string) : M unit := λ w,
  if accepts (env w) path (default EmptyString (files w !! path)) EmptyString
  then (Ok (), w) else (Raise IOError, w).

(** [for x in l: body(x)]. *)
Fixpoint for_each {A} (l : list A) (body : A → M unit) : M unit :=
  match l with
  | [] => mret ()
  | x :: l' => body x ;; for_each l' body
  end.

(** ** The program *)

(** [check_file], lines 69-83: [sys.exit] when [open] raises [IOError];
    the [TypeError] of a path with a NUL byte is not caught. *)
Definition check_file (f : string) : M unit := λ w,
  if has_nul f then (Raise TypeError, w)
  else match files w !! f with
       | Some _ => (Ok (), w)
       | None => (Raise SystemExit, w)
       end.

(** One step of the inner loop of [create_ref_dict], lines 109-113, on the
    dictionary and the counter [i]. *)
Definition ref_step (st : gmap string Z * Z) (item : string) : gmap string Z * Z :=
  match st.1 !! item with
  | Some _ => st
  | None => (<[item := st.2]> st.1, st.2 + 1)
  end.

(** [create_ref_dict], lines 86-113: the three nested loops over rows,
    columns and keys, from [i = 1] and the dictionary as it stands. *)
Definition create_ref_dict (refs : list (list (list string)))
    (table_refs : gmap string Z) : gmap string Z :=
  (foldl (λ st line, foldl (λ st col, foldl ref_step st col) st line)
         (table_refs, 1) refs).1.

(** [dict.items()]: the pairs in the order of the interpreter. *)
Definition items (order : dict_enum) (d : gmap string Z) : list (string * Z) :=
  order d.

(** [sorted(..., key=lambda x: x[1])]: a stable sort, entries of equal rank
    stay in the order in which they are given. *)
Definition rank_le (x y : string * Z) : Prop := x.2 ≤ y.2.
#[global] Instance rank_le_dec : RelDecision rank_le.
Proof. intros x y. unfold rank_le. apply _. Defined.

Fixpoint insert_by_rank (x : string * Z) (l : list (string * Z)) : list (string * Z) :=
  match l with
  | [] => [x]
  | y :: l' => if decide (rank_le x y) then x :: l else y :: insert_by_rank x l'
  end.

Definition sorted_by_rank (l : list (string * Z)) : list (string * Z) :=
  foldr insert_by_rank [] l.

(** ['(%s) \\citet{%s}, ' % (str(x[1]), x[0])]. *)
Definition note_entry (x : string * Z) : string :=
  "(" +:+ Py.str x.2 +:+ ") \citet{" +:+ x.1 +:+ "}, ".

(** [table_note_gen], lines 116-140, on the pairs of the dictionary. *)
Definition table_note_of (its : list (string * Z)) : string :=
  let src := sorted_by_rank its in
  let clist := Py.concat (note_entry <$> src) in
  "\tablenotetext{}{{\bf References.} " +:+ Py.rstrip_chars ", " clist +:+ "}".

Definition table_note_gen (order : dict_enum) (table_refs : gmap string Z) : string :=
  table_note_of (items order table_refs).

(** The marker lines, ['\\startdata\n'] and ['\\enddata\n']. *)
Definition startdata : string := "\startdata" +:+ Py.nl.
Definition enddata : string := "\enddata" +:+ Py.nl.

(** Line 180: [x.rstrip('\n').rstrip().rstrip('\\\\').split('&')]. *)
Definition row_split (x : string) : list string :=
  Py.split "&" (Py.rstrip_chars "\\" (Py.rstrip (Py.rstrip_chars Py.nl x))).

(** Line 188, one cell: [x[c][x[c].index('{') + 1 : x[c].index('}')]]. *)
Definition cite_of_field (xc : string) : outcome string :=
  a ← orelse (Py.index "{" xc) ValueError;
  b ← orelse (Py.index "}" xc) ValueError;
  mret (Py.slice xc (a + 1) b).

Definition cite_of (x : list string) (c : pyval) : outcome string :=
  getitem_val x c ≫= cite_of_field.

(** Lines 202-203: [for r in refs[i][j]: data[i][c] = data[i][c].replace(r,
    str(table_refs[r]))], on the text of the cell. *)
Fixpoint replace_keys (tr : gmap string Z) (keys : list string) (field : string)
    : outcome string :=
  match keys with
  | [] => mret field
  | r :: keys' =>
      n ← dict_get tr r;
      replace_keys tr keys' (Py.replace field r (Py.str n))
  end.

(** Lines 205-206. *)
Definition strip_wrappers (field : string) : string :=
  let field := Py.replace (Py.replace field "\citet{" "") "\citep{" "" in
  Py.replace (Py.replace field "\cite{" "") "}" "".

(** Line 208. *)
Definition normalise (field : string) : string :=
  Py.join ", " (Py.sorted (Py.split "," (Py.lstrip (Py.rstrip field)))).

(** Lines 202-208 for one cell. *)
Definition rewrite_cell (tr : gmap string Z) (keys : list string) (field : string)
    : outcome string :=
  field ← replace_keys tr keys field;
  mret (normalise (strip_wrappers field)).

(** Lines 199-208 for one row: the cells named by [col] are rewritten in
    place, one after the other. *)
Fixpoint rewrite_row (tr : gmap string Z) (col : list pyval)
    (refs_i : list (list string)) (row : list string) : outcome (list string) :=
  match col with
  | [] => mret row
  | c :: col' =>
      keys ← orelse (head refs_i) IndexError;
      field ← getitem_val row c;
      field ← rewrite_cell tr keys field;
      row ← setitem_val row c field;
      rewrite_row tr col' (tail refs_i) row
  end.

(** Lines 197-208: all rows. *)
Fixpoint rewrite_rows (tr : gmap string Z) (col : list pyval)
    (refs : list (list (list string))) (data : list (list string))
    : outcome (list (list string)) :=
  match data with
  | [] => mret []
  | row :: data' =>
      refs_i ← orelse (head refs) IndexError;
      row ← rewrite_row tr col refs_i row;
      rest ← rewrite_rows tr col (tail refs) data';
      mret (row :: rest)
  end.

(** [write_to_file], lines 215-236. *)
Definition write_to_file (f : string) (table data : list string)
    (tablenote : string) (start end_ : nat) : M unit :=
  let fout := f +:+ "_new" in
  fopen_w fout ;;
  for_each (seq 0 (start + 1)) (λ i,
    x ← lift (getitem table (Z.of_nat i)); fwrite fout x) ;;
  for_each (seq 0 (length data)) (λ i,
    x ← lift (getitem data (Z.of_nat i));
    let x := if decide (Z.of_nat i < Z.of_nat (length data) - 1)
             then x +:+ " \\" else x in
    fwrite fout (x +:+ Py.nl)) ;;
  (x ← lift (getitem table (Z.of_nat end_)); fwrite fout (x +:+ Py.nl)) ;;
  fwrite fout (tablenote +:+ Py.nl) ;;
  for_each (seq (end_ + 1) (length table - (end_ + 1))) (λ i,
    x ← lift (getitem table (Z.of_nat i)); fwrite fout x) ;;
  fclose fout.

(** The columns of line 183-186; [None] is the default ['Last']. *)
Definition select_cols (cols : option (list pyval)) (data : list (list string))
    : outcome (list pyval) :=
  match cols with
  | None => x ← getitem data 0; mret [PyInt (Z.of_nat (length x) - 1)]
  | Some cols => mret cols
  end.

(** Reading and updating the module-level dictionary. *)
Definition get_table_refs : M (gmap string Z) := λ w, (Ok (table_refs w), w).
Definition update_table_refs (g : gmap string Z → gmap string Z) : M unit := λ w,
  (Ok (), World (files w) (stdin w) (g (table_refs w)) (env w)).

(** [table_note_gen(refs)] as called: it reads the module-level dictionary,
    in the order of the interpreter. *)
Definition call_table_note_gen : M string := λ w,
  (Ok (table_note_gen (dict_order (env w)) (table_refs w)), w).

(** Lines 188-189: the text between the braces, per row and column. *)
Definition extract_cites (col : list pyval) (data : list (list string))
    : outcome (list (list string)) :=
  mapM (λ x, mapM (cite_of x) col) data.

(** Line 191: [x[i]] ranges over the whole of [x], which has [len(col)]
    elements. *)
Definition split_cites (cites : list (list string)) : list (list (list string)) :=
  (λ x : list string, Py.split "," <$> x) <$> cites.

(** [order_refs], lines 143-212. *)
Definition order_refs (f : string) (cols : option (list pyval)) : M unit :=
  check_file f ;;
  table ← fi_input f;
  start ← lift (orelse (Py.list_index startdata table) ValueError);
  end_ ← lift (orelse (Py.list_index enddata table) ValueError);
  let data := row_split <$> Py.list_slice table (start + 1) end_ in
  col ← lift (select_cols cols data);
  cites ← lift (extract_cites col data);
  let refs := split_cites cites in
  update_table_refs (create_ref_dict refs) ;;
  tablenote ← call_table_note_gen;
  tr ← get_table_refs;
  data ← lift (rewrite_rows tr col refs data);
  let data_new := Py.join " & " <$> data in
  write_to_file f table data_new tablenote start end_.

Section CommandLine.

(** Whether [float(text)] accepts the text of an argument. *)
Variable float_accepts : string → bool.

Definition float (text : string) : outcome pyval :=
  if float_accepts text then Ok (PyFloat text) else Raise ValueError.

(** The [__main__] block, lines 239-247, on [sys.argv]. *)
Definition main (argv : list string) : M unit :=
  let n_args := Z.of_nat (length argv) in
  if decide (n_args < 2) then
    f ← lift (getitem argv 1);
    order_refs f None
  else
    idx ← lift (iter_int n_args);
    columns ← lift (mapM (λ i, getitem argv i ≫= float) (filter (λ i, i > 1) idx));
    f ← lift (getitem argv 1);
    order_refs f (Some columns).

End CommandLine.

(** ** Definitions for the statements *)

(** The entries of a dictionary in the order of the map itself: one order
    among those the interpreter may have. *)
Definition map_order : dict_enum := DictEnum map_to_list (λ d, Permutation_refl _).

(** The entries in the reverse of that order: another order that the
    interpreter may have. *)
Definition reverse_order : dict_enum :=
  DictEnum (λ d, reverse (map_to_list d)) (λ d, reverse_Permutation (map_to_list d)).

(** An environment in which every file can be written. *)
Definition kind_env (order : dict_enum) : environment :=
  Env order (λ _, true) (λ _ _ _, true).

Definition std_env : environment := kind_env map_order.

(** The world with another order of the dictionary entries. *)
Definition with_order (order : dict_enum) (w : world) : world :=
  World (files w) (stdin w) (table_refs w)
        (Env order (writable (env w)) (accepts (env w))).

(** The path can be opened for reading. *)
Definition readable (w : world) (f : string) : Prop :=
  has_nul f = false ∧ is_Some (files w !! f).

(** The path can be opened for writing and nothing written to it fails. *)
Definition writes_well (w : world) (path : string) : Prop :=
  has_nul path = false ∧ writable (env w) path = true ∧
  ∀ cur x, accepts (env w) path cur x = true.

(** No two keys of the dictionary share a rank. *)
Definition rank_injective (tr : gmap string Z) : Prop :=
  ∀ k1 k2 r, tr !! k1 = Some r → tr !! k2 = Some r → k1 = k2.

(** The ranks of [m] are the numbers from 1 up to [i - 1], each given once. *)
Record numbered (m : gmap string Z) (i : Z) : Prop := {
  numbered_next : i = Z.of_nat (size m) + 1;
  numbered_onto : ∀ r, (∃ k, m !! k = Some r) ↔ 1 ≤ r < i;
  numbered_inj : ∀ k1 k2 r, m !! k1 = Some r → m !! k2 = Some r → k1 = k2
}.

(** One entry of the footnote, without the separator that follows it. *)
Definition note_item (x : string * Z) : string :=
  "(" +:+ Py.str x.2 +:+ ") \citet{" +:+ x.1 +:+ "}".

(** The table of the example: three rows whose citation fields are
    [\citet{SmithA}], [\citet{JonesB}], [\citet{SmithA}]. *)
Definition smith_jones_refs : list (list (list string)) :=
  [[["SmithA"]]; [["JonesB"]]; [["SmithA"]]].


(** The world with the file at [path] holding [text]. *)
Definition with_file (path text : string) (w : world) : world :=
  World (<[path := text]> (files w)) (stdin w) (table_refs w) (env w).

(** The rows as written: every row but the last is followed by [ \\]. *)
Fixpoint rows_text (rows : list string) : string :=
  match rows with
  | [] => ""
  | [x] => x +:+ Py.nl
  | x :: rest => x +:+ " \\" +:+ Py.nl +:+ rows_text rest
  end.

(** The pieces that [write_to_file] hands to [fout.write], one per call. *)
Fixpoint row_chunks (rows : list string) : list string :=
  match rows with
  | [] => []
  | [x] => [x +:+ Py.nl]
  | x :: rest => ((x +:+ " \\") +:+ Py.nl) :: row_chunks rest
  end.

Definition output_chunks (table rows : list string) (tablenote : string)
    (start end_ : nat) : list string :=
  take (start + 1) table ++ row_chunks rows ++
  (default "" (table !! end_) +:+ Py.nl) :: (tablenote +:+ Py.nl) ::
  drop (end_ + 1) table.

(** From [w] to [w'] nothing changed but, at most, the file at [path]. *)
Definition touches_only (path : string) (w w' : world) : Prop :=
  stdin w' = stdin w ∧ table_refs w' = table_refs w ∧ env w' = env w ∧
  ∀ p, p ≠ path → files w' !! p = files w !! p.

(** A command that changes nothing but the file at [path] and raises nothing
    but [IOError]. *)
Definition writer (path : string) (m : M unit) : Prop :=
  ∀ w o w', m w = (o, w') →
    touches_only path w w' ∧ ∀ e, o = Raise e → e = IOError.

(** A command that does not look at the order of the dictionary entries. *)
Definition order_blind {A} (m : M A) : Prop :=
  ∀ order w, m (with_order order w) = ((m w).1, with_order order (m w).2).

(** The text that [write_to_file] leaves in the new file. *)
Definition output_text (table rows : list string) (tablenote : string)
    (start end_ : nat) : string :=
  Py.concat (take (start + 1) table) +:+ rows_text rows +:+
  (default "" (table !! end_) +:+ Py.nl) +:+ (tablenote +:+ Py.nl) +:+
  Py.concat (drop (end_ + 1) table).

(** The text that [fileinput] reads for the name [f], and the world after
    reading it. *)
Definition input_text (f : string) (w : world) : string :=
  if decide (f = "-") then stdin w else default "" (files w !! f).

Definition after_input (f : string) (w : world) : world :=
  if decide (f = "-") then World (files w) "" (table_refs w) (env w) else w.

(** Lines 177-191 on the lines of the file: the marker positions, the rows,
    the columns and the keys. *)
Definition locate (table : list string) (cols : option (list pyval))
    : outcome (nat * nat * list (list string) * list pyval * list (list (list string))) :=
  start ← orelse (Py.list_index startdata table) ValueError;
  end_ ← orelse (Py.list_index enddata table) ValueError;
  let data := row_split <$> Py.list_slice table (start + 1) end_ in
  col ← select_cols cols data;
  cites ← extract_cites col data;
  mret (start, end_, data, col, split_cites cites).

(** A table for the examples: three rows, the last column cites SmithA,
    JonesB and SmithA again. *)
Definition demo_text : string :=
  "\begin{deluxetable}{lc}" +:+ Py.nl +:+
  "\startdata" +:+ Py.nl +:+
  "HD 1 & \citet{SmithA} \\" +:+ Py.nl +:+
  "HD 2 & \citet{JonesB} \\" +:+ Py.nl +:+
  "HD 3 & \citet{SmithA}" +:+ Py.nl +:+
  "\enddata" +:+ Py.nl +:+
  "\end{deluxetable}" +:+ Py.nl.

Definition demo_world : world := World {[ "t.tex" := demo_text ]} "" ∅ std_env.

(** The output as the specification words it: the footnote line right after
    the end marker line. *)
Definition output_text_spec (table rows : list string) (tablenote : string)
    (start end_ : nat) : string :=
  Py.concat (take (start + 1) table) +:+ rows_text rows +:+
  default "" (table !! end_) +:+ (tablenote +:+ Py.nl) +:+
  Py.concat (drop (end_ + 1) table).

(** Whether an opening brace is followed, somewhere, by a closing brace. *)
Fixpoint has_brace_pair (s : string) : bool :=
  match s with
  | EmptyString => false
  | String c s' => (Ascii.eqb c "{" && Py.mem_char "}" s') || has_brace_pair s'
  end.

(** The CitationSet of one cell: line 188 followed by line 191. *)
Definition citation_set (xc : string) : outcome (list string) :=
  cite ← cite_of_field xc; mret (Py.split "," cite).

(** A table without its end marker, and one whose cited cell has no brace. *)
Definition no_end_text : string :=
  "\startdata" +:+ Py.nl +:+ "HD 1 & \citet{SmithA}" +:+ Py.nl.

Definition no_brace_text : string :=
  "\startdata" +:+ Py.nl +:+ "HD 1 & 1" +:+ Py.nl +:+ "\enddata" +:+ Py.nl.

Definition no_end_world : world := World {[ "t.tex" := no_end_text ]} "" ∅ std_env.
Definition no_brace_world : world := World {[ "t.tex" := no_brace_text ]} "" ∅ std_env.

(** A table whose cited cell holds the two braces the wrong way round. *)
Definition reversed_braces_text : string :=
  "\startdata" +:+ Py.nl +:+ "}{" +:+ Py.nl +:+ "\enddata" +:+ Py.nl.

Definition reversed_braces_world : world :=
  World {[ "t.tex" := reversed_braces_text ]} "" ∅ std_env.

(** An environment in which a file takes no more than [n] bytes, and the
    table of the examples in it. *)
Definition small_disk_env (n : nat) : environment :=
  Env map_order (λ _, true) (λ _ cur x, (String.length (cur +:+ x) <=? n)%nat).

Definition small_disk_world : world :=
  World {[ "t.tex" := demo_text ]} "" ∅ (small_disk_env 40).

(** An environment in which no file can be opened for writing. *)
Definition read_only_env : environment :=
  Env map_order (λ _, false) (λ _ _ _, true).

Definition read_only_world : world :=
  World {[ "t.tex" := demo_text ]} "" ∅ read_only_env.

(** Two tables handled in one process: the second cites JonesB only. *)
Definition second_text : string :=
  "\startdata" +:+ Py.nl +:+
  "HD 9 & \citet{JonesB}" +:+ Py.nl +:+
  "\enddata" +:+ Py.nl.

(** A third table, citing a key the first table does not have. *)
Definition third_text : string :=
  "\startdata" +:+ Py.nl +:+
  "HD 7 & \citet{LeeC}" +:+ Py.nl +:+
  "\enddata" +:+ Py.nl.

Definition batch_world : world :=
  World {[ "t.tex" := demo_text; "u.tex" := second_text; "v.tex" := third_text ]} "" ∅
    std_env.

(** [s.find(old)]: the position at which [old] first occurs in [s]. *)
Fixpoint first_occurrence (old s : string) : option nat :=
  if String.prefix old s then Some O
  else match s with
       | EmptyString => None
       | String _ s' => S <$> first_occurrence old s'
       end.

(** Every byte of the text satisfies [p]. *)
Fixpoint all_chars (p : ascii → bool) (s : string) : bool :=
  match s with
  | EmptyString => true
  | String c s' => p c && all_chars p s'
  end.

(** The bytes of [str(n)]: a sign and decimal digits. *)
Definition is_num_char (c : ascii) : bool := Py.mem_char c "-0123456789".

(** The wrapper tokens of lines 205-206. *)
Definition is_wrapper (w : string) : Prop :=
  w = "\citet{" ∨ w = "\citep{" ∨ w = "\cite{".

(** The index [c] names a cell of a row with [n] fields. *)
Definition valid_index (n : nat) (c : pyval) : Prop :=
  ∃ i, c = PyInt i ∧ is_Some (Py.norm_index n i).

(** A designated cell that line 188 accepts: it is there and holds an
    opening and a closing brace. *)
Definition citable (row : list string) (c : pyval) : Prop :=
  ∃ field, getitem_val row c = Ok field ∧
           Py.mem_char "{" field = true ∧ Py.mem_char "}" field = true.

(** The position [j] of a row with [n] fields is one that [col] names. *)
Definition designated (n : nat) (col : list pyval) (j : nat) : Prop :=
  ∃ i, PyInt i ∈ col ∧ Py.norm_index n i = Some j.

(** The cell at position [c] of the row is there and holds an opening and a
    closing brace. *)
Definition cited_at (c : nat) (row : list string) : Prop :=
  ∃ field, row !! c = Some field ∧
           Py.mem_char "{" field = true ∧ Py.mem_char "}" field = true.

(** What a run with the one column [c] does with a row: the cell at position
    [c] is read, [ks] is its CitationSet, and the cell becomes its rewrite;
    the other cells stay. *)
Definition default_row (tr : gmap string Z) (c : nat)
    (row ks row' : list string) : Prop :=
  ∃ field out, row !! c = Some field ∧ citation_set field = Ok ks ∧
               rewrite_cell tr ks field = Ok out ∧ row' = <[c := out]> row.

(** The number of places of the text at which [key] stands. *)
Fixpoint occurrences (key s : string) : nat :=
  ((if String.prefix key s then 1 else 0) +
   match s with
   | EmptyString => 0
   | String _ s' => occurrences key s'
   end)%nat.

(** The precondition as the specification words it: every key of the cell
    stands in the field at its own place and nowhere else. *)
Definition keys_occur_once (keys : list string) (field : string) : bool :=
  forallb (λ k, occurrences k field =? 1)%nat keys.

(** The numbered list that is meant: the ranks of the keys, sorted and
    joined. *)
Definition numbered_list (tr : gmap string Z) (keys : list string) : string :=
  Py.join ", " (Py.sorted ((λ k, Py.str (tr !!! k)) <$> keys)).

(** A table with the end marker right after the start marker. *)
Definition no_rows_text : string :=
  "\startdata" +:+ Py.nl +:+ "\enddata" +:+ Py.nl +:+ "\end{deluxetable}" +:+ Py.nl.

Definition no_rows_world : world := World {[ "t.tex" := no_rows_text ]} "" ∅ std_env.

(** * Properties *)

(** ** Strings *)

Lemma append_cons (c : ascii) (s t : string) : String c s +:+ t = String c (s +:+ t).
Proof. done. Qed.

Lemma append_nil_l (s : string) : "" +:+ s = s.
Proof. done. Qed.

Lemma append_nil_r (s : string) : s +:+ "" = s.
Proof. induction s as [|c s IH]; [done|]. by rewrite append_cons, IH. Qed.

Lemma append_assoc (s t u : string) : (s +:+ t) +:+ u = s +:+ t +:+ u.
Proof. induction s as [|c s IH]; [done|]. by rewrite !append_cons, IH. Qed.

(** ** The reference index ([create_ref_dict]) *)

Lemma create_ref_dict_flat (refs : list (list (list string))) (tr : gmap string Z) :
  create_ref_dict refs tr = (foldl ref_step (tr, 1) (concat (concat refs))).1.
Proof.
  unfold create_ref_dict. f_equal. generalize (tr, 1).
  induction refs as [|line refs IH]; intros st; [done|].
  change (concat (line :: refs)) with (line ++ concat refs).
  rewrite concat_app, foldl_app, <- IH. cbn. f_equal. clear IH.
  revert st. induction line as [|col line IH]; intros st; [done|].
  cbn. by rewrite foldl_app, <- IH.
Qed.

Lemma numbered_empty : numbered ∅ 1.
Proof.
  split.
  - by rewrite map_size_empty.
  - intros r. split; [intros [k Hk]; by rewrite lookup_empty in Hk | lia].
  - intros k1 k2 r Hk. by rewrite lookup_empty in Hk.
Qed.

Lemma ref_step_numbered m i item :
  numbered m i → numbered (ref_step (m, i) item).1 (ref_step (m, i) item).2.
Proof.
  intros [Hn Ho Hi]. unfold ref_step. cbn.
  destruct (m !! item) as [r0|] eqn:Hitem; cbn; [by split|].
  split.
  - rewrite map_size_insert_None by done. lia.
  - intros r. split.
    + intros [k Hk]. destruct (decide (item = k)) as [->|Hne].
      * rewrite lookup_insert_eq in Hk. injection Hk as <-. lia.
      * rewrite lookup_insert_ne in Hk by done.
        assert (1 ≤ r < i) by (apply Ho; eauto). lia.
    + intros Hr. destruct (decide (r = i)) as [->|Hne].
      * exists item. by rewrite lookup_insert_eq.
      * destruct (proj2 (Ho r)) as [k Hk]; [lia|].
        exists k. rewrite lookup_insert_ne; [done|]. intros ->. congruence.
  - intros k1 k2 r H1 H2.
    destruct (decide (item = k1)) as [E1|N1], (decide (item = k2)) as [E2|N2];
      [congruence|subst k1|subst k2|].
    + rewrite lookup_insert_eq in H1. rewrite lookup_insert_ne in H2 by done.
      injection H1 as <-. assert (1 ≤ i < i) by (apply Ho; eauto). lia.
    + rewrite lookup_insert_eq in H2. rewrite lookup_insert_ne in H1 by done.
      injection H2 as <-. assert (1 ≤ i < i) by (apply Ho; eauto). lia.
    + rewrite lookup_insert_ne in H1, H2 by done. eauto.
Qed.

Lemma scan_numbered keys m i :
  numbered m i →
  numbered (foldl ref_step (m, i) keys).1 (foldl ref_step (m, i) keys).2.
Proof.
  revert m i. induction keys as [|k keys IH]; intros m i Hn; [done|].
  cbn. pose proof (ref_step_numbered m i k Hn) as Hs.
  destruct (ref_step (m, i) k) as [m' i']. by apply IH.
Qed.

Lemma ref_step_stable m i item k r :
  m !! k = Some r → (ref_step (m, i) item).1 !! k = Some r.
Proof.
  intros Hk. unfold ref_step. cbn.
  destruct (m !! item) eqn:Hitem; cbn; [done|].
  rewrite lookup_insert_ne; [done|]. intros ->. congruence.
Qed.

Lemma scan_stable keys m i k r :
  m !! k = Some r → (foldl ref_step (m, i) keys).1 !! k = Some r.
Proof.
  revert m i. induction keys as [|k' keys IH]; intros m i Hk; [done|].
  cbn. pose proof (ref_step_stable m i k' k r Hk) as Hs.
  destruct (ref_step (m, i) k') as [m' i']. by apply IH.
Qed.

Lemma scan_dom keys m i :
  dom (foldl ref_step (m, i) keys).1 = dom m ∪ list_to_set keys.
Proof.
  revert m i. induction keys as [|k keys IH]; intros m i.
  - cbn. set_solver.
  - cbn. destruct (ref_step (m, i) k) as [m' i'] eqn:Hs. rewrite IH.
    unfold ref_step in Hs. cbn in Hs.
    destruct (m !! k) eqn:Hk; simplify_eq.
    + assert (k ∈ dom m') by (apply elem_of_dom; eauto). set_solver.
    + rewrite dom_insert_L. set_solver.
Qed.

Lemma scan_fresh keys m i k :
  m !! k = None → (foldl ref_step (m, i) (k :: keys)).1 !! k = Some i.
Proof.
  intros Hk. cbn. unfold ref_step at 2. cbn. rewrite Hk.
  apply scan_stable. by rewrite lookup_insert_eq.
Qed.

(** C1.  From an empty dictionary, [create_ref_dict] numbers exactly the keys
    of the table; the ranks are the numbers 1..K for the K distinct keys, no
    rank is given twice; the rank of a key is one more than the number of
    distinct keys scanned before its first appearance (rows top to bottom,
    columns in the given order, keys left to right); and a rank once given
    stays when the scan goes on. *)
Theorem create_ref_dict_ranks (refs : list (list (list string))) :
  let keys := concat (concat refs) in
  let m := create_ref_dict refs ∅ in
  let K := size (list_to_set keys : gset string) in
  (∀ k, k ∈ keys ↔ is_Some (m !! k)) ∧
  (∀ r, (∃ k, m !! k = Some r) ↔ 1 ≤ r ≤ Z.of_nat K) ∧
  (∀ k1 k2 r, m !! k1 = Some r → m !! k2 = Some r → k1 = k2) ∧
  (∀ pre k post, keys = pre ++ k :: post → k ∉ pre →
     m !! k = Some (Z.of_nat (size (list_to_set pre : gset string)) + 1)) ∧
  (∀ more k r, m !! k = Some r → create_ref_dict (refs ++ more) ∅ !! k = Some r).
Proof.
  intros keys m K. subst m K.
  rewrite create_ref_dict_flat. fold keys.
  pose proof (scan_numbered keys ∅ 1 numbered_empty) as [Hn Ho Hi].
  pose proof (scan_dom keys ∅ 1) as Hd. rewrite dom_empty_L, (left_id_L ∅ (∪)) in Hd.
  split; [|split; [|split; [|split]]].
  - intros k. rewrite <- elem_of_dom, Hd. set_solver.
  - intros r. rewrite Ho, Hn, <- size_dom, Hd. lia.
  - exact Hi.
  - intros pre k post Hkeys Hpre. rewrite Hkeys, foldl_app.
    pose proof (scan_numbered pre ∅ 1 numbered_empty) as [Hn' _ _].
    pose proof (scan_dom pre ∅ 1) as Hd'.
    rewrite dom_empty_L, (left_id_L ∅ (∪)) in Hd'.
    destruct (foldl ref_step (∅, 1) pre) as [m' i'] eqn:Hscan.
    cbn [fst snd] in Hn', Hd'. rewrite scan_fresh.
    + by rewrite Hn', <- size_dom, Hd'.
    + apply not_elem_of_dom. rewrite Hd'. set_solver.
  - intros more k r Hk. rewrite create_ref_dict_flat, !concat_app, foldl_app.
    fold keys. destruct (foldl ref_step (∅, 1) keys) as [m' i']. by apply scan_stable.
Qed.

(** ** The footnote ([table_note_gen]) *)

Lemma rstrip_by_app_keep p (s t : string) :
  Py.rstrip_by p t ≠ "" → Py.rstrip_by p (s +:+ t) = s +:+ Py.rstrip_by p t.
Proof.
  intros Ht. induction s as [|c s IH]; [done|].
  rewrite !append_cons. cbn. rewrite IH.
  destruct (s +:+ Py.rstrip_by p t) eqn:E; [|done].
  destruct s; [|done]. by rewrite append_nil_l in E.
Qed.

Lemma rstrip_by_app_drop p (s t : string) :
  Py.rstrip_by p t = "" → Py.rstrip_by p (s +:+ t) = Py.rstrip_by p s.
Proof.
  intros Ht. induction s as [|c s IH]; [done|].
  rewrite !append_cons. cbn. by rewrite IH.
Qed.

#[global] Instance rank_le_total : Total rank_le.
Proof. intros x y. unfold rank_le. lia. Qed.

#[global] Instance rank_le_trans : Transitive rank_le.
Proof. intros x y z. unfold rank_le. lia. Qed.

Lemma note_entry_item x : note_entry x = note_item x +:+ ", ".
Proof. unfold note_entry, note_item. by rewrite !append_assoc. Qed.

Lemma rstrip_note_item x : Py.rstrip_chars ", " (note_item x) = note_item x.
Proof.
  unfold note_item, Py.rstrip_chars.
  rewrite <- !append_assoc. by rewrite rstrip_by_app_keep.
Qed.

Lemma join_note_items_nonempty x l : Py.join ", " (note_item <$> x :: l) ≠ "".
Proof. destruct l; done. Qed.

Lemma rstrip_note_entries (l : list (string * Z)) :
  Py.rstrip_chars ", " (Py.concat (note_entry <$> l)) = Py.join ", " (note_item <$> l).
Proof.
  induction l as [|x l IH]; [done|].
  change (Py.concat (note_entry <$> x :: l))
    with (note_entry x +:+ Py.concat (note_entry <$> l)).
  destruct l as [|y l].
  - change (Py.concat (note_entry <$> [])) with "". rewrite append_nil_r, note_entry_item.
    unfold Py.rstrip_chars. rewrite rstrip_by_app_drop by done. apply rstrip_note_item.
  - unfold Py.rstrip_chars in *. rewrite rstrip_by_app_keep.
    + rewrite IH, note_entry_item, append_assoc. done.
    + rewrite IH. apply join_note_items_nonempty.
Qed.

(** The text of the footnote in closed form. *)
Lemma table_note_of_join (its : list (string * Z)) :
  table_note_of its =
  "\tablenotetext{}{{\bf References.} " +:+
    Py.join ", " (note_item <$> sorted_by_rank its) +:+ "}".
Proof. unfold table_note_of. cbv zeta. by rewrite rstrip_note_entries. Qed.

Lemma insert_by_rank_perm x l : insert_by_rank x l ≡ₚ x :: l.
Proof.
  induction l as [|y l IH]; [done|]. cbn.
  destruct (decide (rank_le x y)); [done|]. rewrite IH. apply Permutation_swap.
Qed.

Lemma sorted_by_rank_perm l : sorted_by_rank l ≡ₚ l.
Proof.
  induction l as [|x l IH]; [done|]. cbn. by rewrite insert_by_rank_perm, IH.
Qed.

Lemma insert_by_rank_sorted x l :
  StronglySorted rank_le l → StronglySorted rank_le (insert_by_rank x l).
Proof.
  induction 1 as [|y l Hl IH Hy]; cbn; [repeat constructor|].
  destruct (decide (rank_le x y)) as [Hxy|Hxy].
  - constructor; [by constructor|]. constructor; [done|].
    eapply Forall_impl; [exact Hy|]. intros z Hz. by etrans.
  - constructor; [done|]. rewrite insert_by_rank_perm. constructor; [|done].
    by destruct (total rank_le x y).
Qed.

Lemma sorted_by_rank_sorted l : StronglySorted rank_le (sorted_by_rank l).
Proof.
  induction l as [|x l IH]; cbn; [constructor|]. by apply insert_by_rank_sorted.
Qed.

Lemma rank_inj_items (tr : gmap string Z) :
  rank_injective tr →
  ∀ x y, x ∈ map_to_list tr → y ∈ map_to_list tr → x.2 = y.2 → x = y.
Proof.
  intros Hinj [k1 r1] [k2 r2] H1%elem_of_map_to_list H2%elem_of_map_to_list E.
  cbn in E. subst r2. f_equal. eauto.
Qed.

(** Python 2 leaves the order of [dict.items()] open.  Where no two keys share
    a rank, the footnote does not depend on it: every enumeration of the pairs
    gives the same text. *)
Lemma table_note_any_order (tr : gmap string Z) (its its' : list (string * Z)) :
  rank_injective tr →
  its ≡ₚ map_to_list tr → its' ≡ₚ map_to_list tr →
  table_note_of its = table_note_of its'.
Proof.
  intros Hinj Hp Hp'. rewrite !table_note_of_join.
  do 4 f_equal.
  apply (StronglySorted_unique_strong rank_le).
  - intros x y Hx Hy Hxy Hyx. unfold rank_le in *.
    apply (rank_inj_items tr Hinj).
    + by rewrite sorted_by_rank_perm, Hp in Hx.
    + by rewrite sorted_by_rank_perm, Hp' in Hy.
    + lia.
  - apply sorted_by_rank_sorted.
  - apply sorted_by_rank_sorted.
  - by rewrite !sorted_by_rank_perm, Hp, Hp'.
Qed.

Lemma table_note_gen_order (order order' : dict_enum) (tr : gmap string Z) :
  rank_injective tr → table_note_gen order tr = table_note_gen order' tr.
Proof.
  intros Hinj. apply (table_note_any_order tr); [done|apply enum_perm..].
Qed.

Lemma rank_injective_check (tr : gmap string Z) :
  NoDup (map_to_list tr).*2 → rank_injective tr.
Proof.
  intros Hnd k1 k2 r H1%elem_of_map_to_list H2%elem_of_map_to_list.
  apply list_elem_of_lookup in H1 as [i1 H1]. apply list_elem_of_lookup in H2 as [i2 H2].
  assert (i1 = i2) as ->.
  { eapply NoDup_lookup; [exact Hnd|..]; rewrite list_lookup_fmap.
    - by rewrite H1. - by rewrite H2. }
  congruence.
Qed.

(** C2, as the code has it.  Whatever the order in which the dictionary lists
    its entries, the footnote is the fixed macro with an empty first argument
    around the entries sorted by rank ascending and joined with [, ]; each
    entry is [(rank) \citet{key}].  For SmithA with rank 1 and JonesB with
    rank 2 it reads
    [\tablenotetext{}{{\bf References.} (1) \citet{SmithA}, (2) \citet{JonesB}}]. *)
Theorem table_note_gen_form :
  (∀ (order : dict_enum) (tr : gmap string Z),
     ∃ src, src ≡ₚ map_to_list tr ∧ Sorted rank_le src ∧
       table_note_gen order tr =
       "\tablenotetext{}{{\bf References.} " +:+
         Py.join ", " ((λ x, "(" +:+ Py.str x.2 +:+ ") \citet{" +:+ x.1 +:+ "}") <$> src)
         +:+ "}") ∧
  create_ref_dict smith_jones_refs ∅ = {[ "SmithA" := 1; "JonesB" := 2 ]} ∧
  (∀ order : dict_enum,
     table_note_gen order (create_ref_dict smith_jones_refs ∅) =
       "\tablenotetext{}{{\bf References.} (1) \citet{SmithA}, (2) \citet{JonesB}}").
Proof.
  split; [|split].
  - intros order tr. exists (sorted_by_rank (items order tr)). split; [|split].
    + unfold items. by rewrite sorted_by_rank_perm, enum_perm.
    + apply StronglySorted_Sorted, sorted_by_rank_sorted.
    + apply table_note_of_join.
  - by vm_compute.
  - intros order. rewrite (table_note_gen_order order map_order); [by vm_compute|].
    apply rank_injective_check. vm_compute. repeat constructor; set_solver.
Qed.

(** C2 as the specification words it, with entries [(rank) key], does not
    hold in any order of the dictionary: the code wraps every key in
    [\citet{...}]. *)
Lemma table_note_gen_not_bare_keys :
  ¬ ∃ order : dict_enum,
      table_note_gen order (create_ref_dict smith_jones_refs ∅) =
        "\tablenotetext{}{{\bf References.} (1) SmithA, (2) JonesB}".
Proof.
  intros [order H]. rewrite (table_note_gen_order order map_order) in H; [by vm_compute in H|].
  apply rank_injective_check. vm_compute. repeat constructor; set_solver.
Qed.

(** ** The cell rewrite (lines 202-208) *)

Lemma replace_keys_foldl (tr : gmap string Z) (keys : list string) (field : string) :
  Forall (λ r, is_Some (tr !! r)) keys →
  replace_keys tr keys field =
  Ok (foldl (λ fld r, Py.replace fld r (Py.str (tr !!! r))) field keys).
Proof.
  intros Hk. revert field. induction Hk as [|r keys [n Hn] _ IH]; intros field; [done|].
  cbn. unfold dict_get. rewrite Hn. cbn. rewrite IH.
  by rewrite (lookup_total_correct _ _ _ Hn).
Qed.

(** Every key handed to [create_ref_dict] has a rank afterwards, so that
    [table_refs[r]] in line 203 finds it. *)
Lemma create_ref_dict_covers refs (tr : gmap string Z) row_keys keys r :
  row_keys ∈ refs → keys ∈ row_keys → r ∈ keys →
  is_Some (create_ref_dict refs tr !! r).
Proof.
  intros H1 H2 H3. rewrite create_ref_dict_flat. apply elem_of_dom.
  rewrite scan_dom. apply elem_of_union_r, elem_of_list_to_set.
  apply list_elem_of_In, in_concat. exists keys. split; [|by apply list_elem_of_In].
  apply in_concat. exists row_keys. split; by apply list_elem_of_In.
Qed.




(** ** Running commands *)

Lemma bind_Ok {A B} (m : M A) (k : A → M B) w a w' :
  m w = (Ok a, w') → (m ≫= k) w = k a w'.
Proof. intros H. unfold mbind, M_bind. by rewrite H. Qed.

Lemma bind_lift {A B} (o : outcome A) (k : A → M B) w :
  (lift o ≫= k) w = match o with Ok a => k a w | Raise e => (Raise e, w) end.
Proof. by destruct o. Qed.

(** ** Lists and lines *)

Lemma norm_index_nat (n i : nat) : (i < n)%nat → Py.norm_index n (Z.of_nat i) = Some i.
Proof.
  intros Hi. unfold Py.norm_index. rewrite decide_True by lia. by rewrite Nat2Z.id.
Qed.

Lemma getitem_nat {A} (l : list A) (i : nat) (x : A) :
  l !! i = Some x → getitem l (Z.of_nat i) = Ok x.
Proof.
  intros Hx. unfold getitem. rewrite norm_index_nat by (by eapply lookup_lt_Some).
  cbn. by rewrite Hx.
Qed.

Lemma list_index_Some {A} `{EqDecision A} (x : A) (l : list A) (n : nat) :
  Py.list_index x l = Some n ↔ l !! n = Some x ∧ x ∉ take n l.
Proof.
  revert n. induction l as [|y l IH]; intros n; cbn.
  - split; [done|]. by intros [? _].
  - destruct (decide (y = x)) as [->|Hne].
    + split.
      * intros [= <-]. split; [done|]. cbn. set_solver.
      * intros [_ Hn]. destruct n; [done|]. cbn in Hn. set_solver.
    + destruct n as [|n].
      * split; [by destruct (Py.list_index x l)|]. intros [[= ->] _]. done.
      * rewrite fmap_Some. split.
        -- intros (n' & Hn' & [= ->]). apply IH in Hn' as [? ?]. cbn. set_solver.
        -- intros [Hl Hn]. exists n. split; [|done]. apply IH. cbn in *. set_solver.
Qed.

Lemma list_index_None {A} `{EqDecision A} (x : A) (l : list A) :
  Py.list_index x l = None ↔ x ∉ l.
Proof.
  induction l as [|y l IH]; cbn; [set_solver|].
  destruct (decide (y = x)) as [->|Hne]; [set_solver|].
  rewrite fmap_None, IH. set_solver.
Qed.

Lemma pyconcat_cons (x : string) (l : list string) :
  Py.concat (x :: l) = x +:+ Py.concat l.
Proof. done. Qed.

Lemma pyconcat_app (l k : list string) :
  Py.concat (l ++ k) = Py.concat l +:+ Py.concat k.
Proof.
  induction l as [|x l IH]; [done|].
  by rewrite <- app_comm_cons, !pyconcat_cons, IH, append_assoc.
Qed.

(** The lines of a text, put together again, are the text. *)
Lemma concat_readlines (s : string) : Py.concat (readlines s) = s.
Proof.
  induction s as [|c s IH]; [done|]. cbn.
  destruct (Ascii.eqb_spec c Py.LF) as [->|Hc].
  - by rewrite pyconcat_cons, IH.
  - destruct (readlines s) as [|h t].
    + by rewrite <- IH.
    + rewrite pyconcat_cons in *. by rewrite append_cons, IH.
Qed.

(** ** Writing the output ([write_to_file]) *)

Lemma bind_cong {A B} (m m' : M A) (k k' : A → M B) w :
  m w = m' w → (∀ a w', k a w' = k' a w') → (m ≫= k) w = (m' ≫= k') w.
Proof.
  intros Hm Hk. unfold mbind, M_bind. rewrite Hm.
  destruct (m' w) as [[a|e] w']; [apply Hk|done].
Qed.

Lemma bind_assoc {A B C} (m : M A) (k : A → M B) (h : B → M C) w :
  ((m ≫= k) ≫= h) w = (m ≫= (λ a, k a ≫= h)) w.
Proof. unfold mbind, M_bind. by destruct (m w) as [[a|e] w']. Qed.

Lemma for_each_app_then {A} (l k : list A) (body : A → M unit) (m : M unit) w :
  (for_each (l ++ k) body ;; m) w = (for_each l body ;; for_each k body ;; m) w.
Proof.
  revert w. induction l as [|x l IH]; intros w; [done|].
  cbn [app for_each]. rewrite !bind_assoc. apply bind_cong; [done|]. intros _ w'. apply IH.
Qed.

Lemma for_each_cons_then {A} (x : A) (l : list A) (body : A → M unit) (m : M unit) w :
  (for_each (x :: l) body ;; m) w = (body x ;; for_each l body ;; m) w.
Proof. cbn [for_each]. by rewrite bind_assoc. Qed.

Lemma for_each_then_ret {A} (l : list A) (body : A → M unit) w :
  (for_each l body ;; mret ()) w = for_each l body w.
Proof.
  unfold mbind, M_bind. by destruct (for_each l body w) as [[[]|e] w'].
Qed.

(** The loops over indices write the lines they range over. *)
Lemma write_lines_chunks path (table : list string) (n a : nat) w :
  (a + n ≤ length table)%nat →
  for_each (seq a n) (λ i, x ← lift (getitem table (Z.of_nat i)); fwrite path x) w
  = for_each (take n (drop a table)) (fwrite path) w.
Proof.
  revert a w. induction n as [|n IH]; intros a w Hlen; [done|].
  destruct (lookup_lt_is_Some_2 table a) as [x Hx]; [lia|].
  rewrite (drop_S _ _ _ Hx). cbn [seq take for_each].
  apply bind_cong; [by rewrite bind_lift, (getitem_nat _ _ _ Hx)|].
  intros _ w'. apply IH. lia.
Qed.

Lemma write_rows_chunks path (data seen rest : list string) w :
  data = seen ++ rest →
  for_each (seq (length seen) (length rest)) (λ i,
    x ← lift (getitem data (Z.of_nat i));
    let x := if decide (Z.of_nat i < Z.of_nat (length data) - 1)
             then x +:+ " \\" else x in
    fwrite path (x +:+ Py.nl)) w
  = for_each (row_chunks rest) (fwrite path) w.
Proof.
  revert seen w. induction rest as [|x rest IH]; intros seen w ->; [done|].
  assert ((seen ++ x :: rest) !! length seen = Some x) as Hx
    by (by rewrite lookup_app_r, Nat.sub_diag by lia).
  specialize (IH (seen ++ [x])). rewrite length_app in IH. cbn [length] in IH.
  rewrite Nat.add_1_r in IH.
  destruct rest as [|y rest].
  - cbn [length seq for_each row_chunks]. apply bind_cong; [|done].
    rewrite bind_lift, (getitem_nat _ _ _ Hx). cbv zeta.
    rewrite length_app. cbn [length]. by rewrite decide_False by lia.
  - change (row_chunks (x :: y :: rest))
      with (((x +:+ " \\") +:+ Py.nl) :: row_chunks (y :: rest)).
    cbn [length seq for_each] in *. apply bind_cong.
    + rewrite bind_lift, (getitem_nat _ _ _ Hx). cbv zeta.
      rewrite length_app. cbn [length]. by rewrite decide_True by lia.
    + intros _ w'. apply IH. by rewrite <- app_assoc.
Qed.

(** With both indices inside the table, [write_to_file] opens the new file,
    writes the pieces one by one and closes the file. *)
Lemma write_to_file_chunks f table data tablenote start end_ w :
  (start < length table)%nat → (end_ < length table)%nat →
  write_to_file f table data tablenote start end_ w =
  (fopen_w (f +:+ "_new") ;;
   for_each (output_chunks table data tablenote start end_) (fwrite (f +:+ "_new")) ;;
   fclose (f +:+ "_new")) w.
Proof.
  intros Hs He. unfold write_to_file, output_chunks. cbv zeta.
  destruct (lookup_lt_is_Some_2 table end_ He) as [e Hend]. rewrite Hend. cbn [default].
  apply bind_cong; [done|]. intros _ w1.
  rewrite for_each_app_then. apply bind_cong.
  { rewrite write_lines_chunks by lia. by rewrite drop_0. }
  intros _ w2. rewrite for_each_app_then. apply bind_cong.
  { by apply (write_rows_chunks _ data [] data). }
  intros _ w3. rewrite for_each_cons_then. apply bind_cong.
  { by rewrite bind_lift, (getitem_nat _ _ _ Hend). }
  intros _ w4. rewrite for_each_cons_then. apply bind_cong; [done|].
  intros _ w5. apply bind_cong; [|done].
  rewrite write_lines_chunks by lia.
  by rewrite (take_ge (drop (end_ + 1) table)) by (rewrite length_drop; lia).
Qed.

Lemma concat_row_chunks (rows : list string) : Py.concat (row_chunks rows) = rows_text rows.
Proof.
  induction rows as [|x rows IH]; [done|]. destruct rows as [|y rows].
  - cbn [row_chunks rows_text]. by rewrite pyconcat_cons, append_nil_r.
  - change (row_chunks (x :: y :: rows))
      with (((x +:+ " \\") +:+ Py.nl) :: row_chunks (y :: rows)).
    change (rows_text (x :: y :: rows))
      with (x +:+ " \\" +:+ Py.nl +:+ rows_text (y :: rows)).
    by rewrite pyconcat_cons, IH, !append_assoc.
Qed.

Lemma concat_output_chunks table rows tablenote start end_ :
  Py.concat (output_chunks table rows tablenote start end_) =
  output_text table rows tablenote start end_.
Proof.
  unfold output_chunks, output_text.
  by rewrite !pyconcat_app, !pyconcat_cons, concat_row_chunks.
Qed.

Lemma has_nul_new (f : string) : has_nul (f +:+ "_new") = has_nul f.
Proof.
  unfold has_nul. induction f as [|c f IH]; [done|].
  rewrite append_cons. cbn [Py.mem_char]. by rewrite IH.
Qed.

Lemma fopen_w_with_file path w :
  has_nul path = false → writable (env w) path = true →
  fopen_w path w = (Ok (), with_file path "" w).
Proof. intros Hn Hw. unfold fopen_w. by rewrite Hn, Hw. Qed.

Lemma fwrite_with_file path cur x w :
  accepts (env w) path cur x = true →
  fwrite path x (with_file path cur w) = (Ok (), with_file path (cur +:+ x) w).
Proof.
  intros Ha. unfold fwrite, with_file. cbn. rewrite lookup_insert_eq. cbn.
  by rewrite Ha, insert_insert_eq.
Qed.

Lemma fclose_with_file path cur w :
  accepts (env w) path cur "" = true →
  fclose path (with_file path cur w) = (Ok (), with_file path cur w).
Proof.
  intros Ha. unfold fclose, with_file. cbn. rewrite lookup_insert_eq. cbn. by rewrite Ha.
Qed.

Lemma write_chunks_ok path (chunks : list string) cur w :
  (∀ c x, accepts (env w) path c x = true) →
  for_each chunks (fwrite path) (with_file path cur w)
  = (Ok (), with_file path (cur +:+ Py.concat chunks) w).
Proof.
  intros Ha. revert cur. induction chunks as [|x chunks IH]; intros cur.
  - cbn. by rewrite append_nil_r.
  - cbn [for_each]. erewrite bind_Ok; [|by apply fwrite_with_file].
    by rewrite IH, pyconcat_cons, append_assoc.
Qed.

(** With both indices inside the table and a new file that takes what is
    written, [write_to_file] raises nothing and leaves exactly [output_text]
    in the new file. *)
Lemma write_to_file_ok f table data tablenote start end_ w :
  (start < length table)%nat → (end_ < length table)%nat →
  writes_well w (f +:+ "_new") →
  write_to_file f table data tablenote start end_ w =
  (Ok (), with_file (f +:+ "_new") (output_text table data tablenote start end_) w).
Proof.
  intros Hs He (Hn & Hw & Ha). rewrite write_to_file_chunks by done.
  erewrite bind_Ok; [|by apply fopen_w_with_file].
  erewrite bind_Ok; [|by apply write_chunks_ok].
  rewrite fclose_with_file by done.
  by rewrite append_nil_l, concat_output_chunks.
Qed.

Lemma fwrite_with_file_inv path cur x w w' :
  fwrite path x (with_file path cur w) = (Ok (), w') →
  w' = with_file path (cur +:+ x) w.
Proof.
  unfold fwrite, with_file. cbn. rewrite lookup_insert_eq. cbn.
  destruct (accepts _ _ _ _); [|done]. intros [= <-]. by rewrite insert_insert_eq.
Qed.

Lemma write_chunks_inv path (chunks : list string) cur w w' :
  for_each chunks (fwrite path) (with_file path cur w) = (Ok (), w') →
  w' = with_file path (cur +:+ Py.concat chunks) w.
Proof.
  revert cur. induction chunks as [|x chunks IH]; intros cur.
  - intros [= <-]. by rewrite append_nil_r.
  - cbn [for_each]. unfold mbind, M_bind.
    destruct (fwrite path x _) as [[[]|e] w1] eqn:E; [|done].
    apply fwrite_with_file_inv in E as ->. intros ->%IH.
    by rewrite pyconcat_cons, append_assoc.
Qed.

(** When [write_to_file] returns, the new file holds the whole text. *)
Lemma write_to_file_Ok_inv f table data tablenote start end_ w w' :
  (start < length table)%nat → (end_ < length table)%nat →
  write_to_file f table data tablenote start end_ w = (Ok (), w') →
  w' = with_file (f +:+ "_new") (output_text table data tablenote start end_) w.
Proof.
  intros Hs He. rewrite write_to_file_chunks by done.
  unfold mbind at 1, M_bind at 1.
  destruct (fopen_w _ w) as [[[]|e] w1] eqn:E1; [|done].
  assert (w1 = with_file (f +:+ "_new") "" w) as ->.
  { unfold fopen_w in E1. destruct (has_nul _); [done|].
    destruct (writable _ _); [|done]. by injection E1 as <-. }
  unfold mbind at 1, M_bind at 1.
  destruct (for_each _ _ _) as [[[]|e] w2] eqn:E2; [|done].
  apply write_chunks_inv in E2 as ->. unfold fclose.
  destruct (accepts _ _ _ _); [|done]. intros [= <-].
  by rewrite append_nil_l, concat_output_chunks.
Qed.

(** *** What writing can touch *)

Lemma touches_only_refl path w : touches_only path w w.
Proof. by repeat split. Qed.

Lemma touches_only_trans path w1 w2 w3 :
  touches_only path w1 w2 → touches_only path w2 w3 → touches_only path w1 w3.
Proof.
  intros (Ha & Hb & Hc & Hd) (Ha' & Hb' & Hc' & Hd').
  repeat split; try congruence. intros p Hp. by rewrite Hd', Hd.
Qed.

Lemma writer_bind path (m k : M unit) :
  writer path m → writer path k → writer path (m ;; k).
Proof.
  intros Hm Hk w o w'. unfold mbind, M_bind.
  destruct (m w) as [[[]|e] w1] eqn:E; intros H.
  - destruct (Hm _ _ _ E) as [Ht _]. destruct (Hk _ _ _ H) as [Ht' He].
    split; [by eapply touches_only_trans|done].
  - injection H as <- <-. by apply (Hm _ _ _ E).
Qed.

Lemma writer_fopen_w path : has_nul path = false → writer path (fopen_w path).
Proof.
  intros Hn w o w'. unfold fopen_w. rewrite Hn.
  destruct (writable (env w) path); intros [= <- <-].
  - split; [|done]. repeat split; try done. intros p Hp. cbn. by rewrite lookup_insert_ne.
  - split; [apply touches_only_refl|]. by intros e [= <-].
Qed.

Lemma writer_fwrite path x : writer path (fwrite path x).
Proof.
  intros w o w'. unfold fwrite. cbv zeta.
  destruct (accepts _ _ _ _); intros [= <- <-].
  - split; [|done]. repeat split; try done. intros p Hp. cbn. by rewrite lookup_insert_ne.
  - split; [apply touches_only_refl|]. by intros e [= <-].
Qed.

Lemma writer_fclose path : writer path (fclose path).
Proof.
  intros w o w'. unfold fclose.
  destruct (accepts _ _ _ _); intros [= <- <-].
  - split; [apply touches_only_refl|done].
  - split; [apply touches_only_refl|]. by intros e [= <-].
Qed.

Lemma writer_for_each path (chunks : list string) :
  writer path (for_each chunks (fwrite path)).
Proof.
  induction chunks as [|x chunks IH].
  - intros w o w' [= <- <-]. split; [apply touches_only_refl|done].
  - cbn [for_each]. apply writer_bind; [apply writer_fwrite|done].
Qed.

(** [write_to_file] changes nothing but the new file, and what it raises is
    an [IOError]. *)
Lemma write_to_file_writer f table data tablenote start end_ w o w' :
  has_nul f = false →
  (start < length table)%nat → (end_ < length table)%nat →
  write_to_file f table data tablenote start end_ w = (o, w') →
  touches_only (f +:+ "_new") w w' ∧ ∀ e, o = Raise e → e = IOError.
Proof.
  intros Hn Hs He. rewrite write_to_file_chunks by done.
  apply writer_bind; [apply writer_fopen_w; by rewrite has_nul_new|].
  apply writer_bind; [apply writer_for_each|apply writer_fclose].
Qed.

(** ** The conversion as a whole ([order_refs]) *)

Lemma fi_input_eq f w s :
  has_nul f = false → files w !! f = Some s →
  fi_input f w = (Ok (readlines (input_text f w)), after_input f w).
Proof.
  intros Hn Hf. unfold fi_input, input_text, after_input.
  destruct (decide (f = "-")); [done|]. by rewrite Hn, Hf.
Qed.

(** [order_refs] step by step: the new file is opened only after every step
    before [write_to_file] went through. *)
Lemma order_refs_eq f cols w :
  order_refs f cols w =
  if has_nul f then (Raise TypeError, w) else
  match files w !! f with
  | None => (Raise SystemExit, w)
  | Some _ =>
      let table := readlines (input_text f w) in
      let w1 := after_input f w in
      match locate table cols with
      | Raise e => (Raise e, w1)
      | Ok (start, end_, data, col, refs) =>
          let tr := create_ref_dict refs (table_refs w) in
          let w2 := World (files w) (stdin w1) tr (env w) in
          match rewrite_rows tr col refs data with
          | Raise e => (Raise e, w2)
          | Ok data' =>
              write_to_file f table (Py.join " & " <$> data')
                (table_note_gen (dict_order (env w)) tr) start end_ w2
          end
      end
  end.
Proof.
  unfold order_refs. unfold mbind at 1, M_bind at 1, check_file at 1.
  destruct (has_nul f) eqn:Hn; [done|].
  destruct (files w !! f) as [s|] eqn:Hf; [|done].
  erewrite bind_Ok; [|by eapply fi_input_eq]. cbv zeta.
  set (table := readlines (input_text f w)).
  assert (files (after_input f w) = files w ∧ table_refs (after_input f w) = table_refs w
          ∧ env (after_input f w) = env w)
    as (Hfiles & Hrefs & Henv) by (unfold after_input; by destruct (decide _)).
  generalize dependent (after_input f w). intros w1 Hfiles Hrefs Henv.
  unfold locate. rewrite bind_lift.
  destruct (Py.list_index startdata table) as [start|] eqn:Hs; [|done].
  cbn [orelse mbind outcome_bind]. rewrite bind_lift.
  destruct (Py.list_index enddata table) as [end_|] eqn:He; [|done].
  cbn [orelse mbind outcome_bind]. rewrite bind_lift.
  destruct (select_cols cols _) as [col|e]; [|done].
  cbn [mbind outcome_bind]. rewrite bind_lift.
  destruct (extract_cites col _) as [cites|e]; [|done].
  cbn [mbind outcome_bind mret outcome_ret].
  unfold mbind at 1, M_bind at 1, update_table_refs at 1.
  unfold mbind at 1, M_bind at 1, call_table_note_gen at 1.
  unfold mbind at 1, M_bind at 1, get_table_refs at 1.
  cbn [table_refs files stdin env]. rewrite bind_lift, Hrefs, Hfiles, Henv.
  by destruct (rewrite_rows _ col _ _) as [data'|e].
Qed.

(** The indices that [locate] finds are inside the table. *)
Lemma locate_in_table table cols start end_ data col refs :
  locate table cols = Ok (start, end_, data, col, refs) →
  (start < length table)%nat ∧ (end_ < length table)%nat.
Proof.
  unfold locate.
  destruct (Py.list_index startdata table) as [s|] eqn:Hs; [|done].
  destruct (Py.list_index enddata table) as [e|] eqn:He; [|done].
  cbn [orelse mbind outcome_bind].
  destruct (select_cols cols _) as [c|?]; [|done]. cbn [mbind outcome_bind].
  destruct (extract_cites c _) as [cs|?]; [|done]. cbn [mbind outcome_bind].
  intros [= <- <- _ _ _].
  apply list_index_Some in Hs as [Hs%lookup_lt_Some _].
  apply list_index_Some in He as [He%lookup_lt_Some _]. done.
Qed.

(** [order_refs] where the input can be read and the new file takes what is
    written: then the whole text is written. *)
Lemma order_refs_eq_well f cols w :
  readable w f → writes_well w (f +:+ "_new") →
  order_refs f cols w =
  let table := readlines (input_text f w) in
  let w1 := after_input f w in
  match locate table cols with
  | Raise e => (Raise e, w1)
  | Ok (start, end_, data, col, refs) =>
      let tr := create_ref_dict refs (table_refs w) in
      let w2 := World (files w) (stdin w1) tr (env w) in
      match rewrite_rows tr col refs data with
      | Raise e => (Raise e, w2)
      | Ok data' =>
          (Ok (), with_file (f +:+ "_new")
             (output_text table (Py.join " & " <$> data')
                (table_note_gen (dict_order (env w)) tr) start end_) w2)
      end
  end.
Proof.
  intros [Hn [s Hs]] Hw. rewrite order_refs_eq, Hn, Hs. cbv zeta.
  destruct (locate _ cols) as [[[[[start end_] data] col] refs]|e] eqn:Hl; [|done].
  destruct (rewrite_rows _ col refs data) as [data'|e]; [|done].
  apply locate_in_table in Hl as [? ?]. by apply write_to_file_ok.
Qed.

(** *** The order of the dictionary entries *)

Lemma order_blind_bind {A B} (m : M A) (k : A → M B) :
  order_blind m → (∀ a, order_blind (k a)) → order_blind (m ≫= k).
Proof.
  intros Hm Hk order w. unfold mbind, M_bind. rewrite Hm.
  destruct (m w) as [[a|e] w']; [apply Hk|done].
Qed.

Lemma order_blind_lift {A} (o : outcome A) : order_blind (lift o).
Proof. done. Qed.

Lemma order_blind_fopen_w path : order_blind (fopen_w path).
Proof.
  intros order w. unfold fopen_w. cbn.
  destruct (has_nul path); [done|]. by destruct (writable (env w) path).
Qed.

Lemma order_blind_fwrite path x : order_blind (fwrite path x).
Proof. intros order w. unfold fwrite. cbn. by destruct (accepts _ _ _ _). Qed.

Lemma order_blind_fclose path : order_blind (fclose path).
Proof. intros order w. unfold fclose. cbn. by destruct (accepts _ _ _ _). Qed.

Lemma order_blind_for_each {A} (l : list A) (body : A → M unit) :
  (∀ x, order_blind (body x)) → order_blind (for_each l body).
Proof.
  intros Hb. induction l as [|x l IH]; [done|].
  cbn [for_each]. by apply order_blind_bind.
Qed.

Lemma order_blind_write_to_file f table data tablenote start end_ :
  order_blind (write_to_file f table data tablenote start end_).
Proof.
  unfold write_to_file. cbv zeta.
  repeat first
    [ apply order_blind_bind; [|intros ?]
    | apply order_blind_for_each; intros ?
    | apply order_blind_lift | apply order_blind_fopen_w
    | apply order_blind_fwrite | apply order_blind_fclose ].
Qed.

(** The dictionary that a run leaves does not depend on the environment. *)
Lemma order_refs_table_refs f cols w :
  table_refs (order_refs f cols w).2 =
  if has_nul f then table_refs w else
  match files w !! f with
  | None => table_refs w
  | Some _ =>
      match locate (readlines (input_text f w)) cols with
      | Raise _ => table_refs w
      | Ok (_, _, _, _, refs) => create_ref_dict refs (table_refs w)
      end
  end.
Proof.
  rewrite order_refs_eq. destruct (has_nul f) eqn:Hn; [done|].
  destruct (files w !! f); [|done]. cbv zeta.
  destruct (locate _ cols) as [[[[[start end_] data] col] refs]|e] eqn:Hl.
  - destruct (rewrite_rows _ col refs data) as [data'|e]; [|done].
    apply locate_in_table in Hl as [? ?].
    destruct (write_to_file _ _ _ _ _ _ _) as [o w'] eqn:Hw.
    apply write_to_file_writer in Hw as [(_ & Ht & _) _]; [|done..].
    cbn [snd]. by rewrite Ht.
  - cbn [snd]. unfold after_input. by destruct (decide _).
Qed.

(** Where the run leaves a dictionary in which no two keys share a rank, it
    is the same run in every order of the dictionary entries. *)
Lemma order_refs_with_order order f cols w :
  rank_injective (table_refs (order_refs f cols w).2) →
  order_refs f cols (with_order order w) =
  ((order_refs f cols w).1, with_order order (order_refs f cols w).2).
Proof.
  rewrite order_refs_table_refs, !order_refs_eq.
  change (input_text f (with_order order w)) with (input_text f w).
  change (files (with_order order w)) with (files w).
  change (table_refs (with_order order w)) with (table_refs w).
  change (dict_order (env (with_order order w))) with order.
  replace (after_input f (with_order order w)) with (with_order order (after_input f w))
    by (unfold after_input; by destruct (decide _)).
  destruct (has_nul f); [done|]. destruct (files w !! f); [|done]. cbv zeta.
  destruct (locate _ cols) as [[[[[start end_] data] col] refs]|e]; [|done].
  intros Hinj. destruct (rewrite_rows _ col refs data) as [data'|e]; [|done].
  rewrite (table_note_gen_order order (dict_order (env w))) by done.
  apply (order_blind_write_to_file f _ _ _ _ _ order
           (World (files w) (stdin (after_input f w))
                  (create_ref_dict refs (table_refs w)) (env w))).
Qed.

(** A table is its lines before the start marker, the marker, the rows, the
    end marker and the rest, when the first start marker comes before the
    first end marker. *)
Lemma table_split (table : list string) (start end_ : nat) :
  Py.list_index startdata table = Some start →
  Py.list_index enddata table = Some end_ →
  (start < end_)%nat →
  table = take start table ++ startdata ::
          Py.list_slice table (start + 1) end_ ++ enddata :: drop (end_ + 1) table.
Proof.
  intros [Hs _]%list_index_Some [He _]%list_index_Some Hlt.
  rewrite <- (take_drop start table) at 1. f_equal.
  rewrite (drop_S _ _ _ Hs). f_equal. unfold Py.list_slice.
  rewrite Nat.add_1_r.
  rewrite <- (take_drop (end_ - S start) (drop (S start) table)) at 1. f_equal.
  rewrite drop_drop. replace (S start + (end_ - S start))%nat with end_ by lia.
  by rewrite (drop_S _ _ _ He), Nat.add_1_r.
Qed.

(** ** Extracting the keys of a cell (lines 188-191) *)

Lemma mem_char_app c (s t : string) :
  Py.mem_char c (s +:+ t) = Py.mem_char c s || Py.mem_char c t.
Proof.
  induction s as [|d s IH]; [done|].
  rewrite append_cons. cbn. by rewrite IH, orb_assoc.
Qed.

Lemma index_None c (s : string) : Py.index c s = None ↔ Py.mem_char c s = false.
Proof.
  induction s as [|d s IH]; [done|]. cbn.
  rewrite (Ascii.eqb_sym c d). destruct (Ascii.eqb d c); [done|].
  cbn. by rewrite fmap_None.
Qed.

Lemma index_app_first c (pre rest : string) :
  Py.mem_char c pre = false →
  Py.index c (pre +:+ String c rest) = Some (String.length pre).
Proof.
  induction pre as [|d pre IH]; intros Hpre.
  - rewrite append_nil_l. cbn [Py.index]. by rewrite Ascii.eqb_refl.
  - cbn [Py.mem_char] in Hpre. apply orb_false_iff in Hpre as [Hd Hpre].
    rewrite append_cons. cbn [Py.index]. rewrite Ascii.eqb_sym, Hd, IH by done. done.
Qed.

Lemma substring_none n (s : string) : substring n 0 s = "".
Proof. revert n. induction s as [|c s IH]; intros [|n]; cbn; auto. Qed.

Lemma substring_skip (p s : string) n m :
  substring (String.length p + n) m (p +:+ s) = substring n m s.
Proof. induction p as [|c p IH]; [done|]. by rewrite append_cons. Qed.

Lemma substring_prefix (s t : string) : substring 0 (String.length s) (s +:+ t) = s.
Proof.
  induction s as [|c s IH]; [by destruct t|].
  rewrite append_cons. cbn. by rewrite IH.
Qed.

Lemma length_append (s t : string) :
  String.length (s +:+ t) = (String.length s + String.length t)%nat.
Proof. induction s as [|c s IH]; [done|]. rewrite append_cons. cbn. by rewrite IH. Qed.

Lemma mem_char_true c (s : string) :
  Py.mem_char c s = true ↔ ∃ a b, s = a +:+ String c b.
Proof.
  induction s as [|d s IH]; cbn.
  - split; [done|]. intros ([|??] & b & H); discriminate H.
  - rewrite orb_true_iff, IH. split.
    + intros [->%Ascii.eqb_eq|(a & b & ->)]; [by exists "", s|by exists (String d a), b].
    + intros ([|d' a] & b & H).
      * injection H as -> ->. left. apply Ascii.eqb_refl.
      * rewrite append_cons in H. injection H as -> ->. right. eauto.
Qed.

Lemma has_brace_pair_true (s : string) :
  has_brace_pair s = true ↔
  ∃ pre mid post, s = pre +:+ "{" +:+ mid +:+ "}" +:+ post.
Proof.
  induction s as [|d s IH]; cbn.
  - split; [done|]. intros ([|??] & ? & ? & H); discriminate H.
  - rewrite orb_true_iff, andb_true_iff, IH, mem_char_true. split.
    + intros [[->%Ascii.eqb_eq (mid & post & ->)]|(pre & mid & post & ->)].
      * by exists "", mid, post.
      * by exists (String d pre), mid, post.
    + intros ([|d' pre] & mid & post & H).
      * injection H as -> ->. left. split; [done|]. by exists mid, post.
      * rewrite append_cons in H. injection H as -> ->. right. eauto.
Qed.

Lemma mapM_cons {A B} (g : A → outcome B) (x : A) (l : list A) :
  mapM g (x :: l) = y ← g x; k ← mapM g l; mret (y :: k).
Proof. done. Qed.

Lemma mapM_Ok {A B} (g : A → outcome B) (l : list A) (k : list B) :
  mapM g l = Ok k ↔ Forall2 (λ x y, g x = Ok y) l k.
Proof.
  revert k. induction l as [|x l IH]; intros k.
  - split; [intros [= <-]; constructor|by inversion 1].
  - rewrite mapM_cons. split.
    + destruct (g x) as [y|e] eqn:Hx; [|done]. cbn.
      destruct (mapM g l) as [k'|e] eqn:Hl; [|done]. cbn.
      intros [= <-]. constructor; [done|]. by apply IH.
    + intros H. inversion H as [|x' y l' k' Hy Hk]; subst.
      apply IH in Hk. by rewrite Hy, Hk.
Qed.

Lemma mapM_Raise {A B} (g : A → outcome B) (l : list A) (x : A) (e : exn) :
  x ∈ l → g x = Raise e → ∃ e', mapM g l = Raise e'.
Proof.
  intros Hx Hg. destruct (mapM g l) as [k|e'] eqn:Hl; [|eauto].
  apply mapM_Ok in Hl. apply list_elem_of_lookup in Hx as [i Hi].
  destruct (Forall2_lookup_l _ _ _ _ _ Hl Hi) as (y & _ & Hy). congruence.
Qed.

(** The keys that [order_refs] hands to [create_ref_dict] are the
    CitationSets of the designated cells, row by row and column by column. *)
Lemma refs_are_citation_sets col data cites :
  extract_cites col data = Ok cites →
  Forall2 (λ x refs_i,
      Forall2 (λ c keys, getitem_val x c ≫= citation_set = Ok keys) col refs_i)
    data (split_cites cites).
Proof.
  unfold extract_cites, split_cites. rewrite mapM_Ok. intros H.
  apply Forall2_fmap_r. eapply Forall2_impl; [exact H|].
  intros x cs Hx. cbn in Hx. apply mapM_Ok in Hx.
  apply Forall2_fmap_r. eapply Forall2_impl; [exact Hx|].
  intros c s Hc. cbn in Hc. unfold cite_of in Hc.
  destruct (getitem_val x c) as [field|e]; [|done]. cbn in *.
  unfold citation_set. by rewrite Hc.
Qed.

Lemma cite_of_field_Raise (xc : string) :
  (∃ e, cite_of_field xc = Raise e) ↔
  Py.mem_char "{" xc = false ∨ Py.mem_char "}" xc = false.
Proof.
  unfold cite_of_field. rewrite <- !index_None.
  destruct (Py.index "{" xc) as [a|], (Py.index "}" xc) as [b|]; cbn;
    (split; [intros [e He]|intros He]); eauto; try done.
  by destruct He.
Qed.

(** C6, as the code has it.  The CitationSet of a cell is the text strictly
    between the first opening brace and the first closing brace, split at
    the commas, when the opening brace comes first; it is the one empty key
    when the closing brace comes first; and the extraction raises exactly when
    the cell holds no opening brace or no closing brace. *)
Theorem citation_set_spec :
  (∀ xc, (∃ e, citation_set xc = Raise e) ↔
         Py.mem_char "{" xc = false ∨ Py.mem_char "}" xc = false) ∧
  (∀ pre mid post,
     Py.mem_char "{" pre = false → Py.mem_char "}" pre = false →
     Py.mem_char "}" mid = false →
     citation_set (pre +:+ "{" +:+ mid +:+ "}" +:+ post) = Ok (Py.split "," mid)) ∧
  (∀ xc a b,
     Py.index "{" xc = Some a → Py.index "}" xc = Some b → (b < a)%nat →
     citation_set xc = Ok [""]).
Proof.
  split; [|split].
  - intros xc. rewrite <- cite_of_field_Raise. unfold citation_set.
    destruct (cite_of_field xc) as [cite|e]; cbn; split; intros [e' [=]]; eauto.
  - intros pre mid post Hpre1 Hpre2 Hmid. unfold citation_set, cite_of_field.
    rewrite !append_cons, !append_nil_l.
    rewrite (index_app_first "{" pre) by done.
    assert (pre +:+ String "{" (mid +:+ String "}" post)
            = (pre +:+ String "{" mid) +:+ String "}" post) as E
      by (by rewrite append_assoc, append_cons).
    rewrite E, (index_app_first "}"), <- E.
    2:{ rewrite mem_char_app. cbn [Py.mem_char]. by rewrite Hpre2, Hmid. }
    cbn [orelse mbind outcome_bind mret outcome_ret]. do 2 f_equal.
    unfold Py.slice. rewrite !length_append. cbn [String.length].
    replace (String.length pre + S (String.length mid) - (String.length pre + 1))%nat
      with (String.length mid) by lia.
    rewrite substring_skip. cbn [substring]. apply substring_prefix.
  - intros xc a b Ha Hb Hlt. unfold citation_set, cite_of_field. rewrite Ha, Hb.
    cbn [orelse mbind outcome_bind mret outcome_ret]. unfold Py.slice.
    replace (b - (a + 1))%nat with 0%nat by lia. by rewrite substring_none.
Qed.

Lemma citation_set_spec_witness :
  citation_set (" \citet" +:+ "{" +:+ "SmithA,JonesB" +:+ "}" +:+ " ")
    = Ok (Py.split "," "SmithA,JonesB") ∧
  citation_set "}{" = Ok [""].
Proof.
  split.
  - by apply (proj1 (proj2 citation_set_spec)).
  - apply (proj2 (proj2 citation_set_spec) "}{" 1%nat 0%nat); [done|done|lia].
Defined.

(** C6 as the specification words it does not hold: [}{] holds no
    brace-delimited group, and yet the extraction succeeds, with the empty
    key. *)
Lemma citation_set_without_brace_pair :
  has_brace_pair "}{" = false ∧ citation_set "}{" = Ok [""] ∧
  ¬ (∃ e, citation_set "}{" = Raise e).
Proof. split; [done|]. split; [done|]. by intros [e He]. Qed.

(** ** A run on a well-formed table goes through *)

Lemma getitem_val_valid {A} (row : list A) c :
  (∃ x, getitem_val row c = Ok x) ↔ valid_index (length row) c.
Proof.
  unfold valid_index. destruct c as [i|t]; cbn.
  - unfold getitem. split.
    + intros [x Hx]. exists i. split; [done|].
      by destruct (Py.norm_index (length row) i).
    + intros (? & [= <-] & [n Hn]). rewrite Hn. cbn.
      assert (n < length row)%nat as Hlt.
      { unfold Py.norm_index in Hn. repeat case_decide; simplify_eq; lia. }
      destruct (lookup_lt_is_Some_2 row n Hlt) as [x Hx]. rewrite Hx. eauto.
  - split; [by intros [? ?]|]. by intros (? & ? & ?).
Qed.

Lemma setitem_val_valid {A} (row : list A) c (y : A) :
  valid_index (length row) c →
  ∃ row', setitem_val row c y = Ok row' ∧ length row' = length row.
Proof.
  intros (i & -> & [n Hn]). cbn. unfold setitem. rewrite Hn. cbn.
  eexists. split; [done|]. apply length_insert.
Qed.

Lemma rewrite_cell_total (tr : gmap string Z) keys field :
  Forall (λ r, is_Some (tr !! r)) keys → ∃ out, rewrite_cell tr keys field = Ok out.
Proof. intros Hk. unfold rewrite_cell. rewrite replace_keys_foldl by done. cbn. eauto. Qed.

Lemma rewrite_row_total (tr : gmap string Z) col refs_i row :
  Forall (valid_index (length row)) col →
  Forall2 (λ (c : pyval) keys, Forall (λ r, is_Some (tr !! r)) keys) col refs_i →
  ∃ row', rewrite_row tr col refs_i row = Ok row'.
Proof.
  intros Hcol Hrefs. revert row Hcol.
  induction Hrefs as [|c keys col refs_i Hk _ IH]; intros row Hcol; [by eexists|].
  apply Forall_cons in Hcol as [Hc Hcol]. cbn [rewrite_row head tail orelse].
  cbn [mbind outcome_bind].
  destruct (proj2 (getitem_val_valid row c) Hc) as [field ->]. cbn [mbind outcome_bind].
  destruct (rewrite_cell_total tr keys field Hk) as [out ->]. cbn [mbind outcome_bind].
  destruct (setitem_val_valid row c out Hc) as (row' & -> & Hlen). cbn [mbind outcome_bind].
  apply IH. by rewrite Hlen.
Qed.

Lemma rewrite_rows_total (tr : gmap string Z) col refs data :
  Forall2 (λ row refs_i,
      Forall (valid_index (length row)) col ∧
      Forall2 (λ (c : pyval) keys, Forall (λ r, is_Some (tr !! r)) keys) col refs_i)
    data refs →
  ∃ data', rewrite_rows tr col refs data = Ok data'.
Proof.
  induction 1 as [|row refs_i data refs [Hcol Hrefs] _ [data' IH]]; [by eexists|].
  cbn [rewrite_rows head tail orelse]. cbn [mbind outcome_bind].
  destruct (rewrite_row_total tr col refs_i row Hcol Hrefs) as [row' ->].
  cbn [mbind outcome_bind]. rewrite IH. cbn. eauto.
Qed.

Lemma cite_of_citable row c : citable row c ↔ ∃ s, cite_of row c = Ok s.
Proof.
  unfold citable, cite_of. split.
  - intros (field & -> & H1 & H2). cbn.
    destruct (cite_of_field field) as [s|e] eqn:E; [eauto|].
    assert (∃ e, cite_of_field field = Raise e) as H by eauto.
    apply cite_of_field_Raise in H as [H|H]; congruence.
  - intros [s Hs]. destruct (getitem_val row c) as [field|e]; [|done]. cbn in Hs.
    exists field. split; [done|].
    destruct (Py.mem_char "{" field) eqn:H1, (Py.mem_char "}" field) eqn:H2; try done;
      assert (∃ e, cite_of_field field = Raise e) as [e He]
        by (apply cite_of_field_Raise; auto); congruence.
Qed.

Lemma mapM_total {A B} (g : A → outcome B) (l : list A) :
  Forall (λ x, ∃ y, g x = Ok y) l → ∃ k, mapM g l = Ok k.
Proof.
  induction 1 as [|x l [y Hy] _ [k IH]]; [by eexists|].
  rewrite mapM_cons, Hy. cbn. rewrite IH. cbn. eauto.
Qed.

(** Line 188 goes through on a table all of whose designated cells are
    citable. *)
Lemma extract_cites_total col data :
  Forall (λ row, Forall (citable row) col) data →
  ∃ cites, extract_cites col data = Ok cites.
Proof.
  intros H. apply mapM_total. eapply Forall_impl; [exact H|].
  intros row Hrow. apply mapM_total. eapply Forall_impl; [exact Hrow|].
  intros c Hc. by apply cite_of_citable.
Qed.

(** After line 188 has gone through, lines 197-208 go through as well. *)
Lemma rewrite_rows_after_extract col data cites (tr : gmap string Z) :
  extract_cites col data = Ok cites →
  ∃ data', rewrite_rows (create_ref_dict (split_cites cites) tr) col
             (split_cites cites) data = Ok data'.
Proof.
  intros Hc. apply rewrite_rows_total.
  pose proof (refs_are_citation_sets col data cites Hc) as Hsets. clear Hc.
  assert (∀ refs_i, refs_i ∈ split_cites cites →
            Forall (λ keys, Forall (λ r, is_Some
              (create_ref_dict (split_cites cites) tr !! r)) keys) refs_i) as Hcov.
  { intros refs_i Hi. apply Forall_forall. intros keys Hkeys.
    apply Forall_forall. intros r Hr. by eapply create_ref_dict_covers. }
  revert Hcov. generalize (create_ref_dict (split_cites cites) tr). intros tr' Hcov.
  induction Hsets as [|row refs_i data refs Hrow _ IH]; [constructor|].
  constructor.
  - specialize (Hcov refs_i (list_elem_of_here _ _)).
    clear IH. induction Hrow as [|c keys col refs_i Hc' _ IH]; [by split; constructor|].
    apply Forall_cons in Hcov as [Hk Hcov]. destruct (IH Hcov) as [IH1 IH2].
    split; constructor; try done.
    apply getitem_val_valid. destruct (getitem_val row c) as [field|e]; [eauto|done].
  - apply IH. intros refs_j Hj. apply Hcov. by apply list_elem_of_further.
Qed.

(** ** The output document *)

(** C4, as the code has it.  On a well-formed input (the file can be read,
    the first start marker comes before the first end marker, the designated
    columns are there in every row and hold an opening and a closing brace)
    and where the new file takes what is written, the run succeeds, and the
    new file holds: the lines up to and including the start marker, unchanged;
    the rewritten rows, their fields joined with [ & ], each row but the last
    followed by [ \\]; the end marker line; an empty line; the footnote line,
    made from the dictionary in the order in which the interpreter lists it;
    and the lines after the end marker, unchanged.  No other file changes. *)
Theorem order_refs_output f cols w start end_ col :
  let table := readlines (input_text f w) in
  let data := row_split <$> Py.list_slice table (start + 1) end_ in
  readable w f →
  writes_well w (f +:+ "_new") →
  Py.list_index startdata table = Some start →
  Py.list_index enddata table = Some end_ →
  (start < end_)%nat →
  select_cols cols data = Ok col →
  Forall (λ row, Forall (citable row) col) data →
  ∃ w' head lines tail cites data',
    order_refs f cols w = (Ok (), w') ∧
    table = head ++ startdata :: lines ++ enddata :: tail ∧
    length head = start ∧ length lines = (end_ - start - 1)%nat ∧
    input_text f w =
      Py.concat head +:+ startdata +:+ Py.concat lines +:+ enddata +:+ Py.concat tail ∧
    extract_cites col (row_split <$> lines) = Ok cites ∧
    table_refs w' = create_ref_dict (split_cites cites) (table_refs w) ∧
    rewrite_rows (table_refs w') col (split_cites cites) (row_split <$> lines)
      = Ok data' ∧
    files w' = <[f +:+ "_new" :=
        Py.concat head +:+ startdata +:+
        rows_text (Py.join " & " <$> data') +:+
        enddata +:+ Py.nl +:+
        table_note_gen (dict_order (env w)) (table_refs w') +:+ Py.nl +:+
        Py.concat tail]> (files w).
Proof.
  intros table data Hf Hw Hs He Hlt Hcol Hcells. rewrite order_refs_eq_well by done.
  cbv zeta. fold table.
  pose proof (table_split table start end_ Hs He Hlt) as Htable.
  pose proof Hs as [Hs1 _]%list_index_Some. pose proof He as [He1 _]%list_index_Some.
  unfold locate. rewrite Hs, He. cbn [orelse mbind outcome_bind].
  fold data. rewrite Hcol. cbn [mbind outcome_bind].
  destruct (extract_cites_total col data Hcells) as [cites Hcites]. rewrite Hcites.
  cbn [mbind outcome_bind mret outcome_ret].
  destruct (rewrite_rows_after_extract col data cites (table_refs w) Hcites)
    as [data' Hrows].
  rewrite Hrows. eexists.
  exists (take start table), (Py.list_slice table (start + 1) end_),
    (drop (end_ + 1) table), cites, data'.
  split; [reflexivity|]. split; [done|].
  split; [|split; [|split; [|split; [|split; [|split]]]]]; try done.
  - rewrite length_take. apply lookup_lt_Some in Hs1. lia.
  - unfold Py.list_slice. rewrite length_take, length_drop.
    apply lookup_lt_Some in He1. lia.
  - rewrite <- (concat_readlines (input_text f w)). fold table. rewrite Htable at 1.
    by rewrite pyconcat_app, pyconcat_cons, pyconcat_app, pyconcat_cons.
  - unfold with_file. cbn [files table_refs]. f_equal. unfold output_text.
    rewrite He1. cbn [default].
    rewrite Nat.add_1_r, (take_S_r _ _ _ Hs1), pyconcat_app, pyconcat_cons.
    change (Py.concat []) with "". by rewrite append_nil_r, !append_assoc.
Qed.

Lemma order_refs_output_witness :
  ∃ w' head lines tail cites data',
    order_refs "t.tex" None demo_world = (Ok (), w') ∧
    readlines (input_text "t.tex" demo_world)
      = head ++ startdata :: lines ++ enddata :: tail ∧
    length head = 1%nat ∧ length lines = (5 - 1 - 1)%nat ∧
    input_text "t.tex" demo_world =
      Py.concat head +:+ startdata +:+ Py.concat lines +:+ enddata +:+ Py.concat tail ∧
    extract_cites [PyInt 1] (row_split <$> lines) = Ok cites ∧
    table_refs w' = create_ref_dict (split_cites cites) (table_refs demo_world) ∧
    rewrite_rows (table_refs w') [PyInt 1] (split_cites cites) (row_split <$> lines)
      = Ok data' ∧
    files w' = <["t.tex" +:+ "_new" :=
        Py.concat head +:+ startdata +:+
        rows_text (Py.join " & " <$> data') +:+
        enddata +:+ Py.nl +:+
        table_note_gen (dict_order (env demo_world)) (table_refs w') +:+ Py.nl +:+
        Py.concat tail]> (files demo_world).
Proof.
  apply (order_refs_output "t.tex" None demo_world 1 5 [PyInt 1]).
  - split; [done|]. exists demo_text. by vm_compute.
  - by repeat split.
  - by vm_compute.
  - by vm_compute.
  - lia.
  - by vm_compute.
  - vm_compute. repeat constructor; eexists; repeat split; reflexivity.
Defined.

(** C4 as the specification words it does not hold: the code writes the end
    marker line, which ends in a line feed already, followed by one more
    line feed, so an empty line stands between the end marker and the
    footnote, in whatever order the dictionary lists its entries. *)
Lemma order_refs_output_has_empty_line :
  let note := "\tablenotetext{}{{\bf References.} (1) \citet{SmithA}, (2) \citet{JonesB}}" in
  (∀ order,
     files (order_refs "t.tex" None (with_order order demo_world)).2 !! "t.tex_new" = Some (
       "\begin{deluxetable}{lc}" +:+ Py.nl +:+
       "\startdata" +:+ Py.nl +:+
       "HD 1  & 1 \\" +:+ Py.nl +:+
       "HD 2  & 2 \\" +:+ Py.nl +:+
       "HD 3  & 1" +:+ Py.nl +:+
       "\enddata" +:+ Py.nl +:+
       Py.nl +:+
       note +:+ Py.nl +:+
       "\end{deluxetable}" +:+ Py.nl)) ∧
  (∀ order,
     files (order_refs "t.tex" None (with_order order demo_world)).2 !! "t.tex_new" ≠ Some (
       output_text_spec (readlines demo_text) ["HD 1  & 1"; "HD 2  & 2"; "HD 3  & 1"]
         note 1 5)).
Proof.
  assert (∀ order, order_refs "t.tex" None (with_order order demo_world)
            = ((order_refs "t.tex" None demo_world).1,
               with_order order (order_refs "t.tex" None demo_world).2)) as H.
  { intros order. apply order_refs_with_order, rank_injective_check.
    vm_compute. repeat constructor; set_solver. }
  split; intros order; rewrite H; by vm_compute.
Qed.

(** ** All or nothing *)

Lemma locate_missing_marker table cols :
  startdata ∉ table ∨ enddata ∉ table → locate table cols = Raise ValueError.
Proof.
  unfold locate. intros [H|H]; apply list_index_None in H.
  - by rewrite H.
  - rewrite H. by destruct (Py.list_index startdata table).
Qed.

Lemma extract_cites_Raise col data row c field :
  row ∈ data → c ∈ col → getitem_val row c = Ok field →
  Py.mem_char "{" field = false ∨ Py.mem_char "}" field = false →
  ∃ e, extract_cites col data = Raise e.
Proof.
  intros Hrow Hc Hfield Hlack. apply cite_of_field_Raise in Hlack as [e He].
  assert (∃ e', mapM (cite_of row) col = Raise e') as [e' He'].
  { eapply mapM_Raise; [exact Hc|]. unfold cite_of. rewrite Hfield. exact He. }
  eapply mapM_Raise; [exact Hrow|exact He'].
Qed.

Lemma locate_Ok table cols start end_ data col refs :
  locate table cols = Ok (start, end_, data, col, refs) →
  ∃ cites, refs = split_cites cites ∧ extract_cites col data = Ok cites.
Proof.
  unfold locate.
  destruct (Py.list_index startdata table) as [s|]; [|done].
  destruct (Py.list_index enddata table) as [e|]; [|done].
  cbn [orelse mbind outcome_bind].
  destruct (select_cols cols _) as [col'|]; [|done]. cbn [mbind outcome_bind].
  destruct (extract_cites col' _) as [cites|] eqn:Hc; [|done].
  cbn [mbind outcome_bind mret outcome_ret]. intros [= <- <- <- <- <-]. eauto.
Qed.

(** [write_to_file] either writes the whole text or raises [IOError], and
    this only where the new file does not take what is written. *)
Lemma write_to_file_cases f table data tablenote start end_ w :
  has_nul f = false →
  (start < length table)%nat → (end_ < length table)%nat →
  write_to_file f table data tablenote start end_ w =
    (Ok (), with_file (f +:+ "_new") (output_text table data tablenote start end_) w) ∨
  ∃ w', write_to_file f table data tablenote start end_ w = (Raise IOError, w') ∧
        touches_only (f +:+ "_new") w w' ∧ ¬ writes_well w (f +:+ "_new").
Proof.
  intros Hn Hs He.
  destruct (write_to_file f table data tablenote start end_ w) as [[[]|e] w'] eqn:E.
  - left. by rewrite (write_to_file_Ok_inv _ _ _ _ _ _ _ _ Hs He E).
  - right. exists w'.
    destruct (write_to_file_writer _ _ _ _ _ _ _ _ _ Hn Hs He E) as [Ht Hio].
    rewrite (Hio e eq_refl). split; [done|]. split; [done|].
    intros Hw. rewrite write_to_file_ok in E by done. done.
Qed.

Lemma after_input_files f w : files (after_input f w) = files w.
Proof. unfold after_input. by destruct (decide _). Qed.

Lemma after_input_table_refs f w : table_refs (after_input f w) = table_refs w.
Proof. unfold after_input. by destruct (decide _). Qed.

(** The four ways in which a run ends: the path is refused, the file is not
    there, a step of lines 177-191 raises, or [write_to_file] is reached. *)
Lemma order_refs_cases f cols w :
  (has_nul f = true ∧ order_refs f cols w = (Raise TypeError, w)) ∨
  (has_nul f = false ∧ files w !! f = None ∧
   order_refs f cols w = (Raise SystemExit, w)) ∨
  (readable w f ∧ ∃ e,
     locate (readlines (input_text f w)) cols = Raise e ∧
     order_refs f cols w = (Raise e, after_input f w)) ∨
  (readable w f ∧ ∃ start end_ data col refs data',
     locate (readlines (input_text f w)) cols = Ok (start, end_, data, col, refs) ∧
     rewrite_rows (create_ref_dict refs (table_refs w)) col refs data = Ok data' ∧
     (start < length (readlines (input_text f w)))%nat ∧
     (end_ < length (readlines (input_text f w)))%nat ∧
     order_refs f cols w =
       write_to_file f (readlines (input_text f w)) (Py.join " & " <$> data')
         (table_note_gen (dict_order (env w)) (create_ref_dict refs (table_refs w)))
         start end_
         (World (files w) (stdin (after_input f w))
                (create_ref_dict refs (table_refs w)) (env w))).
Proof.
  rewrite order_refs_eq. destruct (has_nul f) eqn:Hn; [by left|].
  destruct (files w !! f) as [s|] eqn:Hf; [|by right; left]. cbv zeta.
  assert (readable w f) as Hr by (split; [done|by rewrite Hf]).
  right. right.
  destruct (locate _ cols) as [[[[[start end_] data] col] refs]|e] eqn:Hl;
    [right|left; eauto].
  split; [done|]. pose proof Hl as (cites & -> & Hcites)%locate_Ok.
  destruct (rewrite_rows_after_extract col data cites (table_refs w) Hcites)
    as [data' Hrows].
  rewrite Hrows. apply locate_in_table in Hl as [? ?].
  by exists start, end_, data, col, (split_cites cites), data'.
Qed.

Lemma locate_lacking_brace table cols start end_ col line c field :
  Py.list_index startdata table = Some start →
  Py.list_index enddata table = Some end_ →
  select_cols cols (row_split <$> Py.list_slice table (start + 1) end_) = Ok col →
  line ∈ Py.list_slice table (start + 1) end_ → c ∈ col →
  getitem_val (row_split line) c = Ok field →
  Py.mem_char "{" field = false ∨ Py.mem_char "}" field = false →
  ∃ e, locate table cols = Raise e.
Proof.
  intros Hs He Hcol Hline Hc Hfield Hlack.
  unfold locate. rewrite Hs, He. cbn [orelse mbind outcome_bind]. rewrite Hcol.
  cbn [mbind outcome_bind].
  destruct (extract_cites_Raise col (row_split <$> Py.list_slice table (start + 1) end_)
              (row_split line) c field) as [e He']; try done.
  { apply list_elem_of_fmap. eauto. }
  rewrite He'. eauto.
Qed.

(** C5, as the code has it.  A run that raises anything but the [IOError] of
    opening or writing the new file leaves every file as it was, and so does
    every run that raises where the new file takes what is written.  A run
    that succeeds could read the file and went through lines 177-191, and
    where the new file takes what is written these two are enough.  After a
    run that succeeded the new file holds the whole text: the lines of the
    input around the rows that [rewrite_rows] made of the located rows, with
    the footnote of the dictionary; no other file changed.  The run raises,
    and writes nothing, when the start marker or the end marker is missing
    and when some designated cell holds no opening brace or no closing
    brace. *)
Theorem order_refs_all_or_nothing f cols w :
  let table := readlines (input_text f w) in
  let run := order_refs f cols w in
  (∀ e, run.1 = Raise e → e ≠ IOError → files run.2 = files w) ∧
  (∀ e, run.1 = Raise e → writes_well w (f +:+ "_new") → files run.2 = files w) ∧
  (run.1 = Ok () → readable w f ∧ ∃ loc, locate table cols = Ok loc) ∧
  (readable w f → (∃ loc, locate table cols = Ok loc) →
     writes_well w (f +:+ "_new") → run.1 = Ok ()) ∧
  (run.1 = Ok () →
     ∃ start end_ data col refs data',
       locate table cols = Ok (start, end_, data, col, refs) ∧
       table_refs run.2 = create_ref_dict refs (table_refs w) ∧
       rewrite_rows (table_refs run.2) col refs data = Ok data' ∧
       files run.2 = <[f +:+ "_new" :=
         output_text table (Py.join " & " <$> data')
           (table_note_gen (dict_order (env w)) (table_refs run.2)) start end_]>
         (files w)) ∧
  (startdata ∉ table ∨ enddata ∉ table →
     ∃ e, run.1 = Raise e ∧ files run.2 = files w ∧ (readable w f → e = ValueError)) ∧
  (∀ start end_ col line c field,
     Py.list_index startdata table = Some start →
     Py.list_index enddata table = Some end_ →
     select_cols cols (row_split <$> Py.list_slice table (start + 1) end_) = Ok col →
     line ∈ Py.list_slice table (start + 1) end_ → c ∈ col →
     getitem_val (row_split line) c = Ok field →
     Py.mem_char "{" field = false ∨ Py.mem_char "}" field = false →
     ∃ e, run.1 = Raise e ∧ files run.2 = files w).
Proof.
  intros table run.
  assert (startdata ∉ table ∨ enddata ∉ table → locate table cols = Raise ValueError)
    as Hmark by apply locate_missing_marker.
  assert (∀ start end_ col line c field,
     Py.list_index startdata table = Some start →
     Py.list_index enddata table = Some end_ →
     select_cols cols (row_split <$> Py.list_slice table (start + 1) end_) = Ok col →
     line ∈ Py.list_slice table (start + 1) end_ → c ∈ col →
     getitem_val (row_split line) c = Ok field →
     Py.mem_char "{" field = false ∨ Py.mem_char "}" field = false →
     ∃ e, locate table cols = Raise e) as Hbrace by apply locate_lacking_brace.
  destruct (order_refs_cases f cols w)
    as [(Hn & Hr)|[(Hn & Hf & Hr)|[(Hrd & e & Hl & Hr)|
        (Hrd & start & end_ & data & col & refs & data' & Hl & Hrows & Hs & He & Hr)]]];
    subst table run.
  - rewrite Hr. cbn [fst snd].
    split; [done|]. split; [done|]. split; [done|].
    split; [intros [? _]; congruence|]. split; [done|]. split.
    + intros _. exists TypeError. split; [done|]. split; [done|].
      intros [? _]. congruence.
    + intros. by exists TypeError.
  - rewrite Hr. cbn [fst snd].
    split; [done|]. split; [done|]. split; [done|].
    split; [intros [_ [? ?]]; congruence|]. split; [done|]. split.
    + intros _. exists SystemExit. split; [done|]. split; [done|].
      intros [_ [? ?]]. congruence.
    + intros. by exists SystemExit.
  - rewrite Hr. cbn [fst snd]. rewrite after_input_files.
    split; [done|]. split; [done|]. split; [done|].
    split; [intros _ [loc Hloc]; congruence|]. split; [done|]. split.
    + intros Hm. exists e. split; [done|]. split; [done|].
      intros _. rewrite (Hmark Hm) in Hl. congruence.
    + intros. by exists e.
  - assert (has_nul f = false) as Hn by apply Hrd.
    assert (∀ P : Prop, startdata ∉ readlines (input_text f w)
                        ∨ enddata ∉ readlines (input_text f w) → P) as Hmark'.
    { intros P Hm. rewrite (Hmark Hm) in Hl. done. }
    assert (∀ (P : Prop) e', locate (readlines (input_text f w)) cols = Raise e' → P)
      as Hbrace' by (intros P e' He'; congruence).
    destruct (write_to_file_cases f (readlines (input_text f w)) (Py.join " & " <$> data')
                (table_note_gen (dict_order (env w)) (create_ref_dict refs (table_refs w)))
                start end_
                (World (files w) (stdin (after_input f w))
                   (create_ref_dict refs (table_refs w)) (env w)) Hn Hs He)
      as [Hw|(w' & Hw & Ht & Hbad)]; rewrite Hr, Hw; cbn [fst snd].
    + split; [done|]. split; [done|]. split; [eauto|]. split; [done|]. split.
      { intros _. by exists start, end_, data, col, refs, data'. }
      split; [apply Hmark'|].
      intros start' end' col' line c field H1 H2 H3 H4 H5 H6 H7.
      destruct (Hbrace _ _ _ _ _ _ H1 H2 H3 H4 H5 H6 H7) as [e' He']. by eapply Hbrace'.
    + split; [by intros e0 [= <-]|]. split; [by intros e0 _ Hwell|].
      split; [done|]. split; [by intros _ _ Hwell|]. split; [done|].
      split; [apply Hmark'|].
      intros start' end' col' line c field H1 H2 H3 H4 H5 H6 H7.
      destruct (Hbrace _ _ _ _ _ _ H1 H2 H3 H4 H5 H6 H7) as [e' He']. by eapply Hbrace'.
Qed.

Lemma order_refs_all_or_nothing_witness :
  (∃ e, (order_refs "t.tex" None no_end_world).1 = Raise e ∧
        files (order_refs "t.tex" None no_end_world).2 = files no_end_world ∧
        (readable no_end_world "t.tex" → e = ValueError)) ∧
  (∃ e, (order_refs "t.tex" None no_brace_world).1 = Raise e ∧
        files (order_refs "t.tex" None no_brace_world).2 = files no_brace_world).
Proof.
  split.
  - apply (proj1 (proj2 (proj2 (proj2 (proj2 (proj2
      (order_refs_all_or_nothing "t.tex" None no_end_world))))))).
    right. apply list_index_None. by vm_compute.
  - apply (proj2 (proj2 (proj2 (proj2 (proj2 (proj2
      (order_refs_all_or_nothing "t.tex" None no_brace_world))))))
      0%nat 2%nat [PyInt 1] ("HD 1 & 1" +:+ Py.nl) (PyInt 1) " 1");
      try (by vm_compute).
    + vm_compute. apply list_elem_of_here.
    + apply list_elem_of_here.
    + by left.
Defined.

(** C5 as the specification words it does not hold.  The cell [}{] holds no
    brace-delimited group, and the run goes through and writes the new file,
    in whatever order the dictionary lists its entries.  And a run is not all
    or nothing where the new file stops taking what is written: on a disk
    with room for 40 bytes the run raises [IOError] and leaves a new file
    that was not there before, with less than the whole text. *)
Lemma order_refs_runs_without_brace_pair :
  has_brace_pair "}{" = false ∧
  (∀ order,
     let run := order_refs "t.tex" None (with_order order reversed_braces_world) in
     run.1 = Ok () ∧
     files run.2 !! "t.tex_new" = Some (
       "\startdata" +:+ Py.nl +:+ "11{1" +:+ Py.nl +:+ "\enddata" +:+ Py.nl +:+ Py.nl +:+
       "\tablenotetext{}{{\bf References.} (1) \citet{}}" +:+ Py.nl)) ∧
  (let run := order_refs "t.tex" None small_disk_world in
   run.1 = Raise IOError ∧
   files small_disk_world !! "t.tex_new" = None ∧
   ∃ text, files run.2 !! "t.tex_new" = Some text ∧ (String.length text ≤ 40)%nat).
Proof.
  split; [done|]. split.
  2:{ split; [by vm_compute|]. split; [by vm_compute|].
      eexists. split; [by vm_compute|]. cbn. lia. }
  intros order. cbv zeta. rewrite order_refs_with_order; [by vm_compute|].
  apply rank_injective_check. vm_compute. repeat constructor; set_solver.
Qed.

(** ** Successive calls *)

(** [order_refs] never empties the dictionary: what a call finds there stays,
    with its rank. *)
Lemma create_ref_dict_keeps refs (tr : gmap string Z) k r :
  tr !! k = Some r → create_ref_dict refs tr !! k = Some r.
Proof. intros Hk. rewrite create_ref_dict_flat. by apply scan_stable. Qed.

Lemma order_refs_keeps_table_refs f cols w k r :
  table_refs w !! k = Some r → table_refs (order_refs f cols w).2 !! k = Some r.
Proof.
  intros Hk. rewrite order_refs_table_refs.
  destruct (has_nul f); [done|]. destruct (files w !! f); [|done].
  destruct (locate _ cols) as [[[[[start end_] data] col] refs]|e]; [|done].
  by apply create_ref_dict_keeps.
Qed.

(** C7 fails on the code.  The dictionary is the module-level one and no call
    empties it: every key keeps its rank over a later call.  Run alone, the
    second table numbers JonesB 1; run after the first table it writes 2 for
    JonesB and lists SmithA in the footnote.  A key new to the third table is
    numbered 1, the rank SmithA already has.  This is so in every order in
    which the dictionary lists its entries. *)
Theorem order_refs_second_call_contaminated :
  (∀ f cols w k r,
     table_refs w !! k = Some r → table_refs (order_refs f cols w).2 !! k = Some r) ∧
  ∀ order,
  let w0 := with_order order batch_world in
  let w1 := (order_refs "t.tex" None w0).2 in
  let alone := (order_refs "u.tex" None w0).2 in
  let after := (order_refs "u.tex" None w1).2 in
  table_refs alone = {[ "JonesB" := 1 ]} ∧
  table_refs after = {[ "SmithA" := 1; "JonesB" := 2 ]} ∧
  files alone !! "u.tex_new" = Some (
    "\startdata" +:+ Py.nl +:+ "HD 9  & 1" +:+ Py.nl +:+ "\enddata" +:+ Py.nl +:+ Py.nl +:+
    "\tablenotetext{}{{\bf References.} (1) \citet{JonesB}}" +:+ Py.nl) ∧
  files after !! "u.tex_new" = Some (
    "\startdata" +:+ Py.nl +:+ "HD 9  & 2" +:+ Py.nl +:+ "\enddata" +:+ Py.nl +:+ Py.nl +:+
    "\tablenotetext{}{{\bf References.} (1) \citet{SmithA}, (2) \citet{JonesB}}"
    +:+ Py.nl) ∧
  table_refs (order_refs "v.tex" None w1).2
    = {[ "SmithA" := 1; "JonesB" := 2; "LeeC" := 1 ]}.
Proof.
  split; [exact order_refs_keeps_table_refs|]. intros order. cbv zeta.
  rewrite (order_refs_with_order order "t.tex" None batch_world)
    by (apply rank_injective_check; vm_compute; repeat constructor; set_solver).
  rewrite (order_refs_with_order order "u.tex" None batch_world)
    by (apply rank_injective_check; vm_compute; repeat constructor; set_solver).
  cbn [snd].
  rewrite (order_refs_with_order order "u.tex" None)
    by (apply rank_injective_check; vm_compute; repeat constructor; set_solver).
  rewrite (order_refs_table_refs "v.tex").
  by vm_compute.
Qed.

Lemma order_refs_second_call_contaminated_witness :
  table_refs (order_refs "u.tex" None
     (World {[ "u.tex" := second_text ]} "" {[ "SmithA" := 1 ]} std_env)).2 !! "SmithA"
  = Some 1.
Proof.
  apply (proj1 order_refs_second_call_contaminated). by vm_compute.
Defined.

(** ** The command line *)

(** C8 fails on the code.  Whatever the arguments, the [__main__] block raises
    before [order_refs] is called: with fewer than two entries in [sys.argv]
    it reads [sys.argv[1]], which is not there; otherwise it iterates over the
    integer [n_args].  No file is read or written. *)
Theorem main_always_raises (float_accepts : string → bool) (argv : list string) (w : world) :
  main float_accepts argv w =
  (Raise (if decide (length argv < 2)%nat then IndexError else TypeError), w).
Proof.
  unfold main. cbv zeta.
  destruct (decide (length argv < 2)%nat) as [Hlt|Hge].
  - rewrite decide_True by lia. rewrite bind_lift.
    unfold getitem, Py.norm_index.
    rewrite decide_False, decide_False by lia. done.
  - rewrite decide_False by lia. by rewrite bind_lift.
Qed.

(** ** The default column *)

Lemma split_nonempty sep (s : string) : Py.split sep s ≠ [].
Proof.
  destruct s as [|c s]; [done|]. cbn.
  destruct (Ascii.eqb c sep); [done|]. by destruct (Py.split sep s).
Qed.

Lemma getitem_last {A} (l : list A) (x : A) :
  last l = Some x → getitem l (Z.of_nat (length l) - 1) = Ok x.
Proof.
  intros Hx. rewrite last_lookup in Hx.
  assert (length l ≠ 0%nat) by (destruct l; [done|cbn; lia]).
  replace (Z.of_nat (length l) - 1) with (Z.of_nat (pred (length l))) by lia.
  by apply getitem_nat.
Qed.

(** With no row between the markers the default raises: [data[0]] is not
    there. *)
Lemma select_cols_default_empty : select_cols None [] = Raise IndexError.
Proof. done. Qed.

Lemma getitem_nat_iff {A} (l : list A) (c : nat) (x : A) :
  getitem l (Z.of_nat c) = Ok x ↔ l !! c = Some x.
Proof.
  split; [|apply getitem_nat]. unfold getitem, Py.norm_index.
  destruct (decide (0 ≤ Z.of_nat c < Z.of_nat (length l))).
  - cbn. rewrite Nat2Z.id. by destruct (l !! c) eqn:E; [intros [= ->]|].
  - by rewrite decide_False by lia.
Qed.

Lemma cited_at_citable c row : cited_at c row ↔ citable row (PyInt (Z.of_nat c)).
Proof.
  unfold cited_at, citable. cbn [getitem_val].
  split; intros (field & H & ?); exists field; (split; [|done]); by apply getitem_nat_iff.
Qed.

Lemma setitem_nat {A} (l : list A) (c : nat) (x y : A) :
  l !! c = Some x → setitem l (Z.of_nat c) y = Ok (<[c := y]> l).
Proof.
  intros Hx. unfold setitem. by rewrite norm_index_nat by (by eapply lookup_lt_Some).
Qed.

(** Lines 188-208 with the one column [c], row by row. *)
Lemma default_rows (tr : gmap string Z) (c : nat) data cites data' :
  extract_cites [PyInt (Z.of_nat c)] data = Ok cites →
  rewrite_rows tr [PyInt (Z.of_nat c)] (split_cites cites) data = Ok data' →
  ∃ keys, split_cites cites = (λ ks, [ks]) <$> keys ∧
          Forall3 (default_row tr c) data keys data'.
Proof.
  unfold extract_cites. revert cites data'.
  induction data as [|row data IH]; intros cites data'.
  - intros [= <-] [= <-]. exists []. split; [done|constructor].
  - rewrite mapM_cons, mapM_cons.
    change (cite_of row (PyInt (Z.of_nat c)))
      with (getitem row (Z.of_nat c) ≫= cite_of_field).
    destruct (getitem row (Z.of_nat c)) as [field|] eqn:Hfield; [|done].
    cbn [mbind outcome_bind]. apply getitem_nat_iff in Hfield.
    destruct (cite_of_field field) as [cite|] eqn:Hcite; [|done].
    cbn [mbind outcome_bind mapM mret outcome_ret].
    destruct (mapM _ data) as [cites'|] eqn:Hrest; [|done].
    cbn [mbind outcome_bind mret outcome_ret]. intros [= <-].
    cbn [split_cites fmap list_fmap rewrite_rows rewrite_row head tail orelse
         mbind outcome_bind getitem_val setitem_val mret outcome_ret].
    rewrite (getitem_nat _ _ _ Hfield). cbn [mbind outcome_bind].
    destruct (rewrite_cell tr (Py.split "," cite) field) as [out|] eqn:Hout; [|done].
    cbn [mbind outcome_bind]. rewrite (setitem_nat _ _ _ _ Hfield).
    cbn [mbind outcome_bind mret outcome_ret].
    destruct (rewrite_rows tr _ _ data) as [rest|] eqn:Hrows; [|done].
    cbn [mbind outcome_bind mret outcome_ret]. intros [= <-].
    destruct (IH cites' rest eq_refl Hrows) as (keys & Hkeys & Hall).
    exists (Py.split "," cite :: keys). split.
    + cbn [fmap list_fmap]. f_equal. exact Hkeys.
    + constructor; [|done]. exists field, out. repeat split; try done.
      unfold citation_set. by rewrite Hcite.
Qed.

(** C9, as the code has it.  Without a column selection, the run takes its
    one column from the first row: with no row between the markers it raises [IndexError]; with
    a first row of n fields it is the run with the single column n - 1, the
    position of the last field of the first row.  That position is used in
    every row: the run raises, and leaves files and dictionary alone, unless
    every row has a cell there with an opening and a closing brace; otherwise
    the cell at that position is, in every row, the one whose CitationSet is
    numbered and the one that is rewritten, and where the new file takes what
    is written the run succeeds and writes the rows so rewritten. *)
Theorem order_refs_default_column f w start end_ :
  let table := readlines (input_text f w) in
  let data := row_split <$> Py.list_slice table (start + 1) end_ in
  let run := order_refs f None w in
  readable w f →
  Py.list_index startdata table = Some start →
  Py.list_index enddata table = Some end_ →
  (data = [] → run = (Raise IndexError, after_input f w)) ∧
  (∀ row0 rest, data = row0 :: rest →
     let c := (length row0 - 1)%nat in
     row0 !! c = last row0 ∧ is_Some (last row0) ∧
     select_cols None data = Ok [PyInt (Z.of_nat (length row0) - 1)] ∧
     run = order_refs f (Some [PyInt (Z.of_nat (length row0) - 1)]) w ∧
     (¬ Forall (cited_at c) data → ∃ e, run = (Raise e, after_input f w)) ∧
     (Forall (cited_at c) data →
        ∃ keys data',
          Forall3 (default_row (table_refs run.2) c) data keys data' ∧
          table_refs run.2 = create_ref_dict ((λ ks, [ks]) <$> keys) (table_refs w) ∧
          (writes_well w (f +:+ "_new") →
             run.1 = Ok () ∧
             files run.2 = <[f +:+ "_new" :=
               output_text table (Py.join " & " <$> data')
                 (table_note_gen (dict_order (env w)) (table_refs run.2)) start end_]>
               (files w)))).
Proof.
  intros table data run Hrd Hs He. pose proof Hrd as [Hn [s Hf]]. split.
  - intros Hdata. subst run. rewrite order_refs_eq, Hn, Hf. cbv zeta. fold table.
    unfold locate. rewrite Hs, He. cbn [orelse mbind outcome_bind]. fold data.
    by rewrite Hdata.
  - intros row0 rest Hdata c.
    assert (length row0 ≠ 0%nat) as Hlen.
    { subst data. apply fmap_cons_inv in Hdata as (line & lines & -> & _ & _).
      intros E. apply length_zero_iff_nil in E. by apply split_nonempty in E. }
    assert (Z.of_nat (length row0) - 1 = Z.of_nat c) as Hc by (subst c; lia).
    assert (select_cols None data = Ok [PyInt (Z.of_nat (length row0) - 1)]) as Hsel
      by (by rewrite Hdata).
    assert (run = order_refs f (Some [PyInt (Z.of_nat (length row0) - 1)]) w) as Hrun.
    { subst run. rewrite !order_refs_eq, Hn, Hf. cbv zeta. fold table.
      unfold locate. rewrite Hs, He. cbn [orelse mbind outcome_bind]. fold data.
      by rewrite Hsel. }
    split; [|split; [|split; [|split; [|split]]]]; try done.
    + subst c. by rewrite last_lookup, Nat.sub_1_r.
    + destruct (last row0) eqn:E; [done|]. apply last_None in E. by subst row0.
    + intros Hnot. subst run. rewrite order_refs_eq, Hn, Hf. cbv zeta. fold table.
      unfold locate. rewrite Hs, He. cbn [orelse mbind outcome_bind]. fold data.
      rewrite Hsel, Hc. cbn [mbind outcome_bind].
      destruct (extract_cites _ data) as [cites|e] eqn:Hcites; [|by exists e].
      destruct Hnot. apply mapM_Ok in Hcites. apply Forall_forall. intros row Hrow.
      apply list_elem_of_lookup in Hrow as [i Hi].
      destruct (Forall2_lookup_l _ _ _ _ _ Hcites Hi) as (cs & _ & Hcs).
      apply cited_at_citable, cite_of_citable.
      rewrite mapM_cons in Hcs. destruct (cite_of row _) as [x|]; [eauto|done].
    + intros Hall.
      assert (Forall (λ row, Forall (citable row) [PyInt (Z.of_nat c)]) data) as Hcit.
      { eapply Forall_impl; [exact Hall|]. intros row Hrow.
        constructor; [|constructor]. by apply cited_at_citable. }
      destruct (extract_cites_total _ _ Hcit) as [cites Hcites].
      destruct (rewrite_rows_after_extract _ _ cites (table_refs w) Hcites)
        as [data' Hrows].
      destruct (default_rows _ _ _ _ _ Hcites Hrows) as (keys & Hkeys & Hrel).
      assert (locate table None =
              Ok (start, end_, data, [PyInt (Z.of_nat c)], split_cites cites)) as Hloc.
      { unfold locate. rewrite Hs, He. cbn [orelse mbind outcome_bind]. fold data.
        rewrite Hsel, Hc. cbn [mbind outcome_bind]. by rewrite Hcites. }
      assert (table_refs run.2 = create_ref_dict (split_cites cites) (table_refs w))
        as Htr.
      { subst run. rewrite order_refs_table_refs, Hn, Hf. fold table. by rewrite Hloc. }
      exists keys, data'. rewrite Htr. split; [done|]. split; [by rewrite Hkeys|].
      intros Hw. subst run. rewrite order_refs_eq_well by done. cbv zeta. fold table.
      by rewrite Hloc, Hrows.
Qed.

Lemma order_refs_default_column_witness :
  order_refs "t.tex" None demo_world = order_refs "t.tex" (Some [PyInt 1]) demo_world ∧
  order_refs "t.tex" None no_rows_world
    = (Raise IndexError, after_input "t.tex" no_rows_world).
Proof.
  split.
  - assert (readable demo_world "t.tex") as Hrd
      by (split; [done|exists demo_text; by vm_compute]).
    destruct (order_refs_default_column "t.tex" demo_world 1 5 Hrd eq_refl eq_refl)
      as [_ H].
    apply (H ["HD 1 "; " \citet{SmithA} "]
             [ ["HD 2 "; " \citet{JonesB} "]; ["HD 3 "; " \citet{SmithA}"] ] eq_refl).
  - assert (readable no_rows_world "t.tex") as Hrd
      by (split; [done|exists no_rows_text; by vm_compute]).
    by apply (order_refs_default_column "t.tex" no_rows_world 0 1 Hrd eq_refl eq_refl).
Defined.

(** C9 as the specification words it, for every call, does not hold: with
    no row between the markers there is no first row to take the column
    from, and the call without a column selection raises [IndexError], where
    the same call with a column given goes through. *)
Lemma order_refs_default_without_rows :
  row_split <$> Py.list_slice (readlines (input_text "t.tex" no_rows_world)) (0 + 1) 1 = [] ∧
  select_cols None [] = Raise IndexError ∧
  order_refs "t.tex" None no_rows_world = (Raise IndexError, no_rows_world) ∧
  (order_refs "t.tex" (Some [PyInt 1]) no_rows_world).1 = Ok ().
Proof. by vm_compute. Qed.

(** ** Replacement over the whole field (lines 202-203) *)

Lemma prefix_append (old b : string) : String.prefix old (old +:+ b) = true.
Proof.
  induction old as [|c old IH]; [by destruct b|].
  rewrite append_cons. cbn. by destruct (ascii_dec c c).
Qed.

Lemma prefix_head c d (old s : string) :
  c ≠ d → String.prefix (String c old) (String d s) = false.
Proof. intros Hne. cbn. by destruct (ascii_dec c d). Qed.

Lemma replace_scan_skip old new (p b : string) :
  Py.replace_scan old new (String.length p) (p +:+ b) = Py.replace_scan old new O b.
Proof. induction p as [|c p IH]; [done|]. by rewrite append_cons. Qed.

Lemma replace_scan_here c old new (b : string) :
  Py.replace_scan (String c old) new O (String c old +:+ b)
  = new +:+ Py.replace_scan (String c old) new O b.
Proof.
  rewrite append_cons. cbn [Py.replace_scan].
  rewrite <- append_cons, prefix_append. cbn [String.length].
  replace (S (String.length old) - 1)%nat with (String.length old) by lia.
  by rewrite replace_scan_skip.
Qed.

Lemma replace_nonempty s c old new :
  Py.replace s (String c old) new = Py.replace_scan (String c old) new O s.
Proof. done. Qed.

(** Where [old] does not occur, [replace] changes nothing. *)
Lemma replace_no_occurrence (s old new : string) :
  old ≠ "" → first_occurrence old s = None → Py.replace s old new = s.
Proof.
  destruct old as [|c old]; [done|]. intros _. rewrite replace_nonempty.
  induction s as [|d s IH]; [done|]. cbn [first_occurrence Py.replace_scan].
  destruct (String.prefix (String c old) (String d s)); [done|].
  rewrite fmap_None. intros H. by rewrite IH.
Qed.

(** Where [old] first occurs after [a], wherever that is, [replace] puts
    [new] there and goes on with the rest of the text. *)
Lemma replace_first_occurrence (a b old new : string) :
  old ≠ "" →
  first_occurrence old (a +:+ old +:+ b) = Some (String.length a) →
  Py.replace (a +:+ old +:+ b) old new = a +:+ new +:+ Py.replace b old new.
Proof.
  destruct old as [|c old]; [done|]. intros _. rewrite !replace_nonempty.
  induction a as [|d a IH].
  - intros _. rewrite !append_nil_l. apply replace_scan_here.
  - rewrite !(append_cons d a). cbn [first_occurrence Py.replace_scan String.length].
    destruct (String.prefix (String c old) (String d (a +:+ String c old +:+ b)));
      [done|].
    intros H. apply fmap_Some in H as (n & Hn & [= <-]). by rewrite IH.
Qed.

Lemma first_occurrence_skip c (old a s : string) :
  Py.mem_char c a = false →
  first_occurrence (String c old) (a +:+ s)
  = (λ n, String.length a + n)%nat <$> first_occurrence (String c old) s.
Proof.
  induction a as [|d a IH]; intros Ha.
  - rewrite append_nil_l. by destruct (first_occurrence _ s).
  - cbn [Py.mem_char] in Ha. apply orb_false_iff in Ha as [Hd%Ascii.eqb_neq Ha].
    rewrite append_cons. cbn [first_occurrence].
    rewrite prefix_head by done. rewrite IH by done.
    by destruct (first_occurrence _ s).
Qed.

Lemma first_occurrence_absent c (old s : string) :
  Py.mem_char c s = false → first_occurrence (String c old) s = None.
Proof.
  intros Hs. rewrite <- (append_nil_r s), first_occurrence_skip by done. done.
Qed.

Lemma replace_absent c (old new s : string) :
  Py.mem_char c s = false → Py.replace s (String c old) new = s.
Proof.
  intros Hs. apply replace_no_occurrence; [done|]. by apply first_occurrence_absent.
Qed.

(** A wrapper that stands in the text, with its first byte nowhere else. *)
Lemma replace_this c (old new lead rest : string) :
  Py.mem_char c lead = false → Py.mem_char c rest = false →
  Py.replace (lead +:+ String c old +:+ rest) (String c old) new = lead +:+ new +:+ rest.
Proof.
  intros Hlead Hrest. rewrite replace_first_occurrence; [|done|].
  - by rewrite replace_absent.
  - rewrite first_occurrence_skip by done.
    rewrite append_cons. cbn [first_occurrence].
    rewrite <- append_cons, prefix_append. cbn. by rewrite Nat.add_0_r.
Qed.

(** A wrapper that does not stand in the text, which has the first byte of
    the wrapper only at the start of another one. *)
Lemma replace_other c (old new lead w rest : string) :
  Py.mem_char c lead = false → Py.mem_char c (w +:+ rest) = false →
  String.prefix (String c old) (String c (w +:+ rest)) = false →
  Py.replace (lead +:+ String c (w +:+ rest)) (String c old) new
  = lead +:+ String c (w +:+ rest).
Proof.
  intros Hlead Hrest Hpre. apply replace_no_occurrence; [done|].
  rewrite first_occurrence_skip by done. cbn [first_occurrence].
  by rewrite Hpre, first_occurrence_absent.
Qed.

Lemma all_chars_mem p c (s : string) :
  all_chars p s = true → p c = false → Py.mem_char c s = false.
Proof.
  intros Hs Hc. induction s as [|d s IH]; [done|].
  cbn in Hs. apply andb_true_iff in Hs as [Hd Hs]. cbn [Py.mem_char].
  rewrite IH by done. rewrite orb_false_r. apply Ascii.eqb_neq. congruence.
Qed.

Lemma rstrip_by_all p (s : string) : all_chars p s = true → Py.rstrip_by p s = "".
Proof.
  induction s as [|c s IH]; [done|]. cbn. intros [Hc Hs]%andb_true_iff.
  by rewrite IH, Hc.
Qed.

Lemma rstrip_by_none p (s : string) :
  all_chars (λ c, negb (p c)) s = true → Py.rstrip_by p s = s.
Proof.
  induction s as [|c s IH]; [done|]. cbn. intros [Hc Hs]%andb_true_iff.
  rewrite IH by done. apply negb_true_iff in Hc. rewrite Hc. by destruct s.
Qed.

Lemma lstrip_by_app p (s t : string) :
  all_chars p s = true → Py.lstrip_by p (s +:+ t) = Py.lstrip_by p t.
Proof.
  induction s as [|c s IH]; [done|]. cbn. intros [Hc Hs]%andb_true_iff.
  rewrite append_cons. cbn. by rewrite Hc, IH.
Qed.

Lemma lstrip_by_none p (s : string) :
  all_chars (λ c, negb (p c)) s = true → Py.lstrip_by p s = s.
Proof.
  destruct s as [|c s]; [done|]. cbn. intros [Hc _]%andb_true_iff.
  apply negb_true_iff in Hc. by rewrite Hc.
Qed.

Lemma split_no_sep sep (s : string) : Py.mem_char sep s = false → Py.split sep s = [s].
Proof.
  induction s as [|c s IH]; [done|]. cbn [Py.mem_char Py.split].
  intros [Hc Hs]%orb_false_iff. rewrite Ascii.eqb_sym, Hc, IH by done. done.
Qed.

Lemma string_of_uint_chars (d : Decimal.uint) :
  all_chars is_num_char (NilEmpty.string_of_uint d) = true.
Proof. induction d; cbn; auto. Qed.

Lemma str_chars (n : Z) : all_chars is_num_char (Py.str n) = true.
Proof.
  unfold Py.str, NilZero.string_of_int, NilZero.string_of_uint.
  destruct (Z.to_int n) as [d|d]; destruct d; try done;
    cbn; apply string_of_uint_chars.
Qed.

Lemma str_nonempty (n : Z) : Py.str n ≠ "".
Proof.
  unfold Py.str, NilZero.string_of_int, NilZero.string_of_uint.
  by destruct (Z.to_int n) as [d|d]; destruct d.
Qed.

Lemma all_chars_impl (p q : ascii → bool) (s : string) :
  (∀ c, p c = true → q c = true) → all_chars p s = true → all_chars q s = true.
Proof.
  intros Hpq. induction s as [|c s IH]; [done|]. cbn.
  intros [Hc Hs]%andb_true_iff. by rewrite (Hpq c Hc), IH.
Qed.

Lemma num_char_cases (c : ascii) :
  is_num_char c = true → c ∈ (["-"; "0"; "1"; "2"; "3"; "4"; "5"; "6"; "7"; "8"; "9"] : list ascii)%char.
Proof.
  unfold is_num_char. cbn [Py.mem_char]. rewrite !orb_true_iff, !Ascii.eqb_eq.
  intros H. set_solver.
Qed.

Lemma str_mem (n : Z) (c : ascii) : is_num_char c = false → Py.mem_char c (Py.str n) = false.
Proof. intros Hc. by eapply all_chars_mem; [apply str_chars|]. Qed.

Lemma str_no_space (n : Z) : all_chars (λ c, negb (Py.isspace c)) (Py.str n) = true.
Proof.
  eapply all_chars_impl; [|apply str_chars].
  intros c Hc%num_char_cases. set_unfold.
  by destruct Hc as [->|[->|[->|[->|[->|[->|[->|[->|[->|[->|[->|[]]]]]]]]]]]].
Qed.

Lemma space_mem (s : string) (c : ascii) :
  all_chars Py.isspace s = true → Py.isspace c = false → Py.mem_char c s = false.
Proof. apply all_chars_mem. Qed.

(** Lines 205-206 on a cell that holds one wrapper around a number. *)
Lemma strip_wrappers_number (lead w trail : string) (n : Z) :
  is_wrapper w →
  all_chars Py.isspace lead = true → all_chars Py.isspace trail = true →
  strip_wrappers (lead +:+ w +:+ Py.str n +:+ "}" +:+ trail)
  = lead +:+ Py.str n +:+ trail.
Proof.
  intros Hw Hlead Htrail.
  set (rest := Py.str n +:+ "}" +:+ trail).
  assert (Py.mem_char "\" lead = false) as Hl by (by apply space_mem).
  assert (Py.mem_char "\" rest = false) as Hr.
  { unfold rest. rewrite !mem_char_app, str_mem, (space_mem trail) by done. done. }
  assert (Py.mem_char "\" (lead +:+ "" +:+ rest) = false) as Hlr
    by (by rewrite !mem_char_app, Hl, Hr).
  assert (Py.replace (lead +:+ "" +:+ rest) "}" "" = lead +:+ Py.str n +:+ trail) as Hbrace.
  { unfold rest. rewrite append_nil_l, <- append_assoc.
    rewrite (replace_this "}" "" "").
    - by rewrite append_nil_l, append_assoc.
    - rewrite mem_char_app, str_mem, (space_mem lead) by done. done.
    - by apply space_mem. }
  unfold strip_wrappers. destruct Hw as [->|[->| ->]].
  - rewrite (replace_this "\" "citet{" "" lead rest) by done.
    rewrite (replace_absent "\" "citep{"), (replace_absent "\" "cite{") by done.
    exact Hbrace.
  - rewrite (append_cons "\" "citep{" rest).
    rewrite (replace_other "\" "citet{" "" lead "citep{" rest); [|done| |done].
    2:{ by rewrite mem_char_app, Hr. }
    rewrite <- (append_cons "\" "citep{" rest).
    rewrite (replace_this "\" "citep{" "" lead rest) by done.
    rewrite (replace_absent "\" "cite{") by done.
    exact Hbrace.
  - rewrite (append_cons "\" "cite{" rest).
    rewrite (replace_other "\" "citet{" "" lead "cite{" rest); [|done| |done].
    2:{ by rewrite mem_char_app, Hr. }
    rewrite (replace_other "\" "citep{" "" lead "cite{" rest); [|done| |done].
    2:{ by rewrite mem_char_app, Hr. }
    rewrite <- (append_cons "\" "cite{" rest).
    rewrite (replace_this "\" "cite{" "" lead rest) by done.
    exact Hbrace.
Qed.

(** Line 208 on a number between white space. *)
Lemma normalise_number (lead trail : string) (n : Z) :
  all_chars Py.isspace lead = true → all_chars Py.isspace trail = true →
  normalise (lead +:+ Py.str n +:+ trail) = Py.str n.
Proof.
  intros Hlead Htrail. unfold normalise, Py.rstrip, Py.lstrip.
  rewrite <- append_assoc, rstrip_by_app_drop by (by apply rstrip_by_all).
  rewrite rstrip_by_app_keep.
  2:{ rewrite rstrip_by_none by apply str_no_space. apply str_nonempty. }
  rewrite rstrip_by_none by apply str_no_space.
  rewrite lstrip_by_app by done. rewrite lstrip_by_none by apply str_no_space.
  rewrite split_no_sep by (by apply str_mem). done.
Qed.

(** C10, as the code has it.  Replacing a key by its rank is [str.replace]
    on the whole field, key after key, each on the text that the keys before
    it left.  For a key that is not empty: where it does not occur the text
    stays as it is, and where it first occurs, at whatever place, the rank is
    written there and the replacement goes on after it.  For the empty key
    the rank is written before every byte and at the end.  A cell with one
    key, not empty, in one wrapper becomes the rank when the key occurs at
    its own place only.  A key that also occurs in the macro name, in another
    key or in the text around the macro leaves something else than the
    numbered list; so does a key that occurs in the rank written for a key
    before it ([\cite{2,1}] becomes [2, 2]), although every key stands at its
    own place only; and [\citep{AB,A}] becomes [1, 2] although A occurs in AB. *)
Theorem replace_keys_is_global :
  (∀ tr r n keys field,
     tr !! r = Some n →
     replace_keys tr (r :: keys) field
     = replace_keys tr keys (Py.replace field r (Py.str n))) ∧
  (∀ field old new,
     old ≠ "" → first_occurrence old field = None → Py.replace field old new = field) ∧
  (∀ a b old new,
     old ≠ "" → first_occurrence old (a +:+ old +:+ b) = Some (String.length a) →
     Py.replace (a +:+ old +:+ b) old new = a +:+ new +:+ Py.replace b old new) ∧
  (∀ new, Py.replace "" "" new = new) ∧
  (∀ c s new, Py.replace (String c s) "" new = new +:+ String c (Py.replace s "" new)) ∧
  (∀ (tr : gmap string Z) key n lead w trail,
     tr !! key = Some n → is_wrapper w →
     all_chars Py.isspace lead = true → all_chars Py.isspace trail = true →
     key ≠ "" →
     first_occurrence key ((lead +:+ w) +:+ key +:+ "}" +:+ trail)
       = Some (String.length (lead +:+ w)) →
     first_occurrence key ("}" +:+ trail) = None →
     rewrite_cell tr [key] ((lead +:+ w) +:+ key +:+ "}" +:+ trail) = Ok (Py.str n)) ∧
  rewrite_cell {[ "cite" := 1 ]} ["cite"] "\citet{cite}" = Ok "\1t{1" ∧
  rewrite_cell {[ "Smith" := 1; "Smith12" := 2 ]} ["Smith"; "Smith12"]
    "\citep{Smith,Smith12}" = Ok "1, 112" ∧
  rewrite_cell {[ "A" := 1 ]} ["A"] "see A \citet{A}" = Ok "see 1 1" ∧
  rewrite_cell {[ "2" := 1; "1" := 2 ]} ["2"; "1"] "\cite{2,1}" = Ok "2, 2" ∧
  rewrite_cell {[ "AB" := 1; "A" := 2 ]} ["AB"; "A"] "\citep{AB,A}" = Ok "1, 2" ∧
  rewrite_cell {[ "" := 1 ]} [""] "\cite{}" = Ok "1\1c1i1t1e1{11".
Proof.
  split; [|split; [|split; [|split; [|split; [|split; [|by vm_compute]]]]]].
  - intros tr r n keys field Hr. cbn. unfold dict_get. by rewrite Hr.
  - exact replace_no_occurrence.
  - exact replace_first_occurrence.
  - done.
  - done.
  - intros tr key n lead w trail Hkey Hw Hlead Htrail Hne Hfirst Hrest.
    unfold rewrite_cell. cbn [replace_keys]. unfold dict_get. rewrite Hkey.
    cbn [orelse mbind outcome_bind mret outcome_ret].
    rewrite replace_first_occurrence by done.
    rewrite (replace_no_occurrence _ key) by done.
    rewrite append_assoc, strip_wrappers_number by done.
    by rewrite normalise_number.
Qed.

Lemma replace_keys_is_global_witness :
  rewrite_cell {[ "SmithA" := 12 ]} ["SmithA"]
    ((" " +:+ "\citet{") +:+ "SmithA" +:+ "}" +:+ " ") = Ok (Py.str 12) ∧
  Py.replace ("see " +:+ "A" +:+ " \citet{A}") "A" "1"
    = "see " +:+ "1" +:+ Py.replace " \citet{A}" "A" "1".
Proof.
  split.
  - apply (proj1 (proj2 (proj2 (proj2 (proj2 (proj2 replace_keys_is_global))))));
      [done|by left|done..].
  - by apply (proj1 (proj2 (proj2 replace_keys_is_global))).
Defined.

(** C10 as the specification words it does not hold: that every key stands
    in the field at its own place only is neither enough for the numbered
    list nor needed for it.  In [\cite{2,1}] the keys 2 and 1 get the ranks 1
    and 2 and stand once each; the 1 written for the key 2 is then taken for
    the key 1, and the cell becomes [2, 2], not [1, 2].  In [\citep{AB,A}] the
    key A stands also in AB, and the cell becomes [1, 2], as meant, because AB
    is replaced first. *)
Lemma replace_keys_precondition_neither :
  let tr1 : gmap string Z := create_ref_dict [[["2"; "1"]]] ∅ in
  let tr2 : gmap string Z := create_ref_dict [[["AB"; "A"]]] ∅ in
  (citation_set "\cite{2,1}" = Ok ["2"; "1"] ∧
   keys_occur_once ["2"; "1"] "\cite{2,1}" = true ∧
   numbered_list tr1 ["2"; "1"] = "1, 2" ∧
   rewrite_cell tr1 ["2"; "1"] "\cite{2,1}" = Ok "2, 2") ∧
  (citation_set "\citep{AB,A}" = Ok ["AB"; "A"] ∧
   keys_occur_once ["AB"; "A"] "\citep{AB,A}" = false ∧
   numbered_list tr2 ["AB"; "A"] = "1, 2" ∧
   rewrite_cell tr2 ["AB"; "A"] "\citep{AB,A}" = Ok "1, 2").
Proof. by vm_compute. Qed.

(** * Further properties of the program *)

(** ** The files a run touches *)

Lemma new_path_differs (f : string) : f +:+ "_new" ≠ f.
Proof.
  intros H. apply (f_equal String.length) in H.
  rewrite length_append in H. cbn in H. lia.
Qed.

(** X1.  A run changes no file but [f + '_new']; in particular the input file
    keeps its text, whether the run succeeds or raises. *)
Theorem order_refs_keeps_other_files f cols w :
  (∀ g, g ≠ f +:+ "_new" → files (order_refs f cols w).2 !! g = files w !! g) ∧
  files (order_refs f cols w).2 !! f = files w !! f.
Proof.
  assert (∀ g, g ≠ f +:+ "_new" → files (order_refs f cols w).2 !! g = files w !! g) as H.
  { intros g Hg.
    destruct (order_refs_cases f cols w)
      as [(_ & ->)|[(_ & _ & ->)|[(_ & e & _ & ->)|
          (Hrd & start & end_ & data & col & refs & data' & _ & _ & Hs & He & ->)]]];
      try done.
    - cbn [snd]. by rewrite after_input_files.
    - destruct (write_to_file _ _ _ _ _ _ _) as [o w'] eqn:E.
      apply write_to_file_writer in E as [(_ & _ & _ & Hfiles) _]; [|apply Hrd|done..].
      cbn [snd]. by rewrite Hfiles. }
  split; [exact H|]. apply H. intros E. by apply (new_path_differs f).
Qed.

(** X2.  On a path that holds no NUL byte and cannot be opened the run exits at
    once with [SystemExit]; on a path with a NUL byte [open] raises
    [TypeError], which [check_file] does not catch.  In both cases nothing is
    read, and the dictionary and the files stay as they are. *)
Theorem order_refs_missing_file f cols w :
  (has_nul f = false → files w !! f = None →
     order_refs f cols w = (Raise SystemExit, w)) ∧
  (has_nul f = true → order_refs f cols w = (Raise TypeError, w)).
Proof.
  split.
  - intros Hn Hf. by rewrite order_refs_eq, Hn, Hf.
  - intros Hn. by rewrite order_refs_eq, Hn.
Qed.

Lemma order_refs_missing_file_witness :
  order_refs "nowhere.tex" (Some [PyInt 1]) demo_world = (Raise SystemExit, demo_world) ∧
  order_refs (String "000" "t.tex") None demo_world = (Raise TypeError, demo_world).
Proof.
  split.
  - by apply (proj1 (order_refs_missing_file "nowhere.tex" (Some [PyInt 1]) demo_world)).
  - by apply (proj2 (order_refs_missing_file (String "000" "t.tex") None demo_world)).
Defined.

(** ** The dictionary over one call *)

Lemma scan_known keys (m : gmap string Z) i :
  Forall (λ k, is_Some (m !! k)) keys → (foldl ref_step (m, i) keys).1 = m.
Proof.
  induction 1 as [|k keys [r Hk] _ IH]; [done|].
  cbn [foldl]. unfold ref_step at 2. cbn [fst snd]. by rewrite Hk.
Qed.

(** X3.  For any dictionary found at the start, [create_ref_dict] keeps every
    entry, adds exactly the keys of the table, and scanning the same table
    once more changes nothing. *)
Theorem create_ref_dict_grows refs (tr : gmap string Z) :
  tr ⊆ create_ref_dict refs tr ∧
  dom (create_ref_dict refs tr) = dom tr ∪ list_to_set (concat (concat refs)) ∧
  create_ref_dict refs (create_ref_dict refs tr) = create_ref_dict refs tr.
Proof.
  split; [|split].
  - apply map_subseteq_spec. intros k r. apply create_ref_dict_keeps.
  - rewrite create_ref_dict_flat. apply scan_dom.
  - rewrite (create_ref_dict_flat refs (create_ref_dict refs tr)).
    apply scan_known, Forall_forall. intros k Hk. apply elem_of_dom.
    rewrite create_ref_dict_flat, scan_dom. set_solver.
Qed.

(** X4.  The first call in a process, whatever its outcome, leaves a dictionary
    whose ranks are the numbers 1..K, each given once; and then the footnote
    is the same for every order in which the dictionary may list its
    entries. *)
Theorem order_refs_first_call_numbered f cols w :
  table_refs w = ∅ →
  let tr := table_refs (order_refs f cols w).2 in
  numbered tr (Z.of_nat (size tr) + 1) ∧
  ∀ order its, its ≡ₚ map_to_list tr → table_note_of its = table_note_gen order tr.
Proof.
  intros Hempty tr.
  assert (numbered tr (Z.of_nat (size tr) + 1)) as Hn.
  { subst tr. rewrite order_refs_table_refs, Hempty.
    assert (numbered ∅ (Z.of_nat (size (∅ : gmap string Z)) + 1)) as H0
      by (rewrite map_size_empty; apply numbered_empty).
    destruct (has_nul f); [done|]. destruct (files w !! f); [|done].
    destruct (locate _ cols) as [[[[[start end_] data] col] refs]|e]; [|done].
    rewrite create_ref_dict_flat.
    pose proof (scan_numbered (concat (concat refs)) ∅ 1 numbered_empty) as Hs.
    by rewrite <- (numbered_next _ _ Hs). }
  split; [done|]. intros order its Hits.
  apply (table_note_any_order tr); [|done|apply enum_perm].
  exact (numbered_inj _ _ Hn).
Qed.

Lemma order_refs_first_call_numbered_witness :
  let tr := table_refs (order_refs "t.tex" None demo_world).2 in
  numbered tr (Z.of_nat (size tr) + 1) ∧
  ∀ order its, its ≡ₚ map_to_list tr → table_note_of its = table_note_gen order tr.
Proof. by apply (order_refs_first_call_numbered "t.tex" None demo_world). Defined.

(** ** [write_to_file] called with indices outside the table *)

Lemma bind_Raise {A B} (m : M A) (k : A → M B) w e w' :
  m w = (Raise e, w') → (m ≫= k) w = (Raise e, w').
Proof. intros H. unfold mbind, M_bind. by rewrite H. Qed.

Lemma getitem_beyond {A} (l : list A) (i : nat) :
  (length l ≤ i)%nat → getitem l (Z.of_nat i) = Raise IndexError.
Proof.
  intros Hi. unfold getitem, Py.norm_index.
  rewrite decide_False, decide_False by lia. done.
Qed.

Lemma for_each_Raise {A} (body : A → M unit) x l w e w' :
  body x w = (Raise e, w') → for_each (x :: l) body w = (Raise e, w').
Proof. intros H. cbn [for_each]. by apply bind_Raise. Qed.

Lemma for_each_app {A} (body : A → M unit) l k w w' :
  for_each l body w = (Ok (), w') →
  for_each (l ++ k) body w = for_each k body w'.
Proof.
  revert w. induction l as [|x l IH]; intros w H.
  - by injection H as <-.
  - cbn [for_each app] in *. unfold mbind, M_bind in *.
    destruct (body x w) as [[[]|e] w1]; [|done]. by apply IH.
Qed.

(** X5.  [write_to_file] opens the new file before it looks at the indices.
    Where the new file takes what is written: with [end] beyond the table it
    raises [IndexError] after the lines up to the start marker and the rows
    are written; with [start] beyond the table it raises after all lines of
    the table are written; the file is left as far as it got.  Where the new
    file cannot be opened it raises [IOError] and nothing has changed. *)
Theorem write_to_file_partial f table data tablenote start end_ w :
  (writes_well w (f +:+ "_new") →
   (start < length table)%nat → (length table ≤ end_)%nat →
   write_to_file f table data tablenote start end_ w =
   (Raise IndexError,
    with_file (f +:+ "_new") (Py.concat (take (start + 1) table) +:+ rows_text data) w)) ∧
  (writes_well w (f +:+ "_new") →
   (length table ≤ start)%nat →
   write_to_file f table data tablenote start end_ w =
   (Raise IndexError, with_file (f +:+ "_new") (Py.concat table) w)) ∧
  (has_nul f = false → writable (env w) (f +:+ "_new") = false →
   write_to_file f table data tablenote start end_ w = (Raise IOError, w)).
Proof.
  split; [|split].
  - intros (Hn & Hw & Ha) Hs He. unfold write_to_file. cbv zeta.
    erewrite bind_Ok; [|by apply fopen_w_with_file].
    erewrite bind_Ok;
      [|rewrite write_lines_chunks by lia; by apply write_chunks_ok].
    erewrite bind_Ok;
      [|rewrite (write_rows_chunks _ data [] data) by done; by apply write_chunks_ok].
    erewrite bind_Raise; [|by rewrite bind_lift, getitem_beyond].
    by rewrite drop_0, append_nil_l, concat_row_chunks.
  - intros (Hn & Hw & Ha) Hs. unfold write_to_file. cbv zeta.
    erewrite bind_Ok; [|by apply fopen_w_with_file].
    replace (start + 1)%nat with (length table + S (start - length table))%nat by lia.
    rewrite seq_app. cbn [Nat.add seq].
    erewrite bind_Raise; [done|].
    erewrite for_each_app;
      [|rewrite write_lines_chunks by lia; by apply write_chunks_ok].
    rewrite drop_0, firstn_all, append_nil_l.
    apply for_each_Raise. by rewrite bind_lift, getitem_beyond.
  - intros Hn Hw. unfold write_to_file. cbv zeta.
    apply bind_Raise. unfold fopen_w. by rewrite has_nul_new, Hn, Hw.
Qed.

Lemma write_to_file_partial_witness :
  write_to_file "t.tex" ["a" +:+ Py.nl; startdata] ["1 & 2"] "note" 1 2 demo_world =
  (Raise IndexError,
   with_file ("t.tex" +:+ "_new")
     (Py.concat (take (1 + 1) ["a" +:+ Py.nl; startdata]) +:+ rows_text ["1 & 2"])
     demo_world) ∧
  write_to_file "t.tex" ["a" +:+ Py.nl; startdata] ["1 & 2"] "note" 5 0 demo_world =
  (Raise IndexError,
   with_file ("t.tex" +:+ "_new") (Py.concat ["a" +:+ Py.nl; startdata]) demo_world) ∧
  write_to_file "t.tex" ["a" +:+ Py.nl; startdata] ["1 & 2"] "note" 1 2 read_only_world =
  (Raise IOError, read_only_world).
Proof.
  split; [|split].
  - apply (proj1 (write_to_file_partial "t.tex" ["a" +:+ Py.nl; startdata] ["1 & 2"]
                    "note" 1 2 demo_world)); [by repeat split|cbn; lia..].
  - apply (proj1 (proj2 (write_to_file_partial "t.tex" ["a" +:+ Py.nl; startdata]
                    ["1 & 2"] "note" 5 0 demo_world))); [by repeat split|cbn; lia].
  - by apply (proj2 (proj2 (write_to_file_partial "t.tex" ["a" +:+ Py.nl; startdata]
                    ["1 & 2"] "note" 1 2 read_only_world))).
Defined.

(** ** What the rewrite leaves alone *)

Lemma setitem_val_inv {A} (row : list A) c (y : A) row' :
  setitem_val row c y = Ok row' →
  ∃ i n, c = PyInt i ∧ Py.norm_index (length row) i = Some n ∧ row' = <[n := y]> row.
Proof.
  destruct c as [i|t]; [|done]. cbn. unfold setitem.
  destruct (Py.norm_index (length row) i) as [n|] eqn:Hn; [|done]. cbn.
  intros [= <-]. by exists i, n.
Qed.

Lemma rewrite_row_frame tr col refs_i row row' :
  rewrite_row tr col refs_i row = Ok row' →
  length row' = length row ∧
  ∀ j, ¬ designated (length row) col j → row' !! j = row !! j.
Proof.
  revert refs_i row. induction col as [|c col IH]; intros refs_i row H.
  - cbn in H. by injection H as <-.
  - cbn [rewrite_row] in H.
    destruct (head refs_i) as [keys|]; [|done]. cbn [orelse mbind outcome_bind] in H.
    destruct (getitem_val row c) as [field|]; [|done]. cbn [mbind outcome_bind] in H.
    destruct (rewrite_cell tr keys field) as [out|]; [|done]. cbn [mbind outcome_bind] in H.
    destruct (setitem_val row c out) as [row1|] eqn:Hset; [|done].
    cbn [mbind outcome_bind] in H.
    apply setitem_val_inv in Hset as (i & n & -> & Hn & ->).
    apply IH in H as [Hlen Hframe]. rewrite length_insert in Hlen, Hframe.
    split; [done|]. intros j Hj. rewrite Hframe.
    + apply list_lookup_insert_ne. intros ->. apply Hj. exists i.
      split; [apply list_elem_of_here|done].
    + intros (i' & Hi' & Hn'). apply Hj. exists i'.
      split; [by apply list_elem_of_further|done].
Qed.

(** X6.  The rewrite keeps the number of rows and the number of fields of every
    row, and changes no field but those that the columns name. *)
Theorem rewrite_rows_frame tr col refs data data' :
  rewrite_rows tr col refs data = Ok data' →
  Forall2 (λ row row',
      length row' = length row ∧
      ∀ j, ¬ designated (length row) col j → row' !! j = row !! j)
    data data'.
Proof.
  revert refs data'. induction data as [|row data IH]; intros refs data' H.
  - cbn in H. injection H as <-. constructor.
  - cbn [rewrite_rows] in H.
    destruct (head refs) as [refs_i|]; [|done]. cbn [orelse mbind outcome_bind] in H.
    destruct (rewrite_row tr col refs_i row) as [row'|] eqn:Hrow; [|done].
    cbn [mbind outcome_bind] in H.
    destruct (rewrite_rows tr col (tail refs) data) as [rest|] eqn:Hrest; [|done].
    cbn in H. injection H as <-. constructor; [|by eapply IH].
    by eapply rewrite_row_frame.
Qed.

Lemma rewrite_rows_frame_witness :
  Forall2 (λ row row',
      length row' = length row ∧
      ∀ j, ¬ designated (length row) [PyInt (-1)] j → row' !! j = row !! j)
    [ [ "HD 1 "; " 5.0 "; " \citet{SmithA}" ] ]
    [ [ "HD 1 "; " 5.0 "; "1" ] ].
Proof.
  apply (rewrite_rows_frame {[ "SmithA" := 1 ]} [PyInt (-1)] [[["SmithA"]]]).
  by vm_compute.
Defined.

(** ** Splitting a row and joining it again (lines 180 and 210) *)

Lemma join_cons_nonempty sep x y (l : list string) :
  Py.join sep (x :: y :: l) = x +:+ sep +:+ Py.join sep (y :: l).
Proof. done. Qed.

Lemma split_cases sep (s : string) : ∃ h t, Py.split sep s = h :: t.
Proof.
  destruct (Py.split sep s) as [|h t] eqn:E; [|eauto]. by apply split_nonempty in E.
Qed.

Lemma join_split_replace sep new (s : string) :
  Py.join new (Py.split sep s) = Py.replace s (String sep "") new.
Proof.
  rewrite replace_nonempty. induction s as [|c s IH]; [done|].
  cbn [Py.split Py.replace_scan String.prefix].
  destruct (split_cases sep s) as (h & t & Hs). rewrite Hs in *.
  destruct (Ascii.eqb_spec c sep) as [->|Hne].
  - destruct (ascii_dec sep sep); [|done].
    rewrite join_cons_nonempty, append_nil_l, IH. by destruct s.
  - destruct (ascii_dec sep c) as [->|_]; [done|].
    rewrite <- IH. destruct t; [done|].
    by rewrite !join_cons_nonempty, append_cons.
Qed.

Lemma replace_same c (s : string) : Py.replace s (String c "") (String c "") = s.
Proof.
  rewrite replace_nonempty. induction s as [|d s IH]; [done|].
  cbn [Py.replace_scan String.prefix].
  destruct (ascii_dec c d) as [->|_].
  - destruct s; cbn [Nat.sub String.length]; by rewrite append_cons, append_nil_l, IH.
  - by rewrite IH.
Qed.

Lemma split_fields_no_sep sep (s : string) :
  Forall (λ fld, Py.mem_char sep fld = false) (Py.split sep s).
Proof.
  induction s as [|c s IH]; [by repeat constructor|]. cbn [Py.split].
  destruct (split_cases sep s) as (h & t & Hs). rewrite Hs in *.
  apply Forall_cons in IH as [Hh Ht].
  destruct (Ascii.eqb_spec c sep) as [->|Hne]; [by repeat constructor|].
  constructor; [|done]. cbn [Py.mem_char]. rewrite Hh, orb_false_r.
  apply Ascii.eqb_neq. congruence.
Qed.

(** X7.  The fields of a row hold no [&]; joined with [&] they give back the
    stripped line, so joined with [ & ], as the rows are written, they give
    the stripped line with every [&] turned into [ & ]: blanks around the
    separators add up with every run. *)
Theorem row_split_join (x : string) :
  let line := Py.rstrip_chars "\\" (Py.rstrip (Py.rstrip_chars Py.nl x)) in
  Forall (λ fld, Py.mem_char "&" fld = false) (row_split x) ∧
  Py.join "&" (row_split x) = line ∧
  Py.join " & " (row_split x) = Py.replace line "&" " & ".
Proof.
  intros line. unfold row_split. fold line. split; [|split].
  - apply split_fields_no_sep.
  - rewrite (join_split_replace "&" "&"). apply replace_same.
  - apply join_split_replace.
Qed.

(** ** A rewritten cell cannot be cited again *)

Lemma replace_removes c (s : string) : Py.mem_char c (Py.replace s (String c "") "") = false.
Proof.
  rewrite replace_nonempty. induction s as [|d s IH]; [done|].
  cbn [Py.replace_scan String.prefix].
  destruct (ascii_dec c d) as [->|Hne].
  - destruct s; cbn [Nat.sub String.length]; by rewrite append_nil_l.
  - cbn [Py.mem_char]. rewrite IH, orb_false_r. by apply Ascii.eqb_neq.
Qed.

Lemma rstrip_by_mem p c (s : string) :
  Py.mem_char c s = false → Py.mem_char c (Py.rstrip_by p s) = false.
Proof.
  induction s as [|d s IH]; [done|]. cbn [Py.mem_char Py.rstrip_by].
  intros [Hd Hs]%orb_false_iff. specialize (IH Hs).
  destruct (Py.rstrip_by p s).
  - destruct (p d); [done|]. cbn [Py.mem_char]. by rewrite Hd.
  - cbn [Py.mem_char] in *. by rewrite Hd, IH.
Qed.

Lemma lstrip_by_mem p c (s : string) :
  Py.mem_char c s = false → Py.mem_char c (Py.lstrip_by p s) = false.
Proof.
  induction s as [|d s IH]; [done|]. cbn [Py.lstrip_by].
  destruct (p d); [|done]. cbn [Py.mem_char]. intros [_ Hs]%orb_false_iff. auto.
Qed.

Lemma split_mem sep c (s : string) :
  Py.mem_char c s = false → Forall (λ tok, Py.mem_char c tok = false) (Py.split sep s).
Proof.
  induction s as [|d s IH]; [by repeat constructor|]. cbn [Py.mem_char Py.split].
  intros [Hd Hs]%orb_false_iff. specialize (IH Hs).
  destruct (split_cases sep s) as (h & t & E). rewrite E in *.
  apply Forall_cons in IH as [Hh Ht].
  destruct (Ascii.eqb d sep); [by repeat constructor|].
  constructor; [|done]. cbn [Py.mem_char]. by rewrite Hd, Hh.
Qed.

Lemma join_mem sep c (l : list string) :
  Py.mem_char c sep = false → Forall (λ tok, Py.mem_char c tok = false) l →
  Py.mem_char c (Py.join sep l) = false.
Proof.
  intros Hsep. induction 1 as [|x l Hx Hl IH]; [done|].
  destruct l as [|y l]; [done|].
  by rewrite join_cons_nonempty, !mem_char_app, Hx, Hsep, IH.
Qed.

Lemma normalise_mem c (s : string) :
  Py.mem_char c ", " = false → Py.mem_char c s = false →
  Py.mem_char c (normalise s) = false.
Proof.
  intros Hsep Hs. unfold normalise. apply join_mem; [done|].
  unfold Py.sorted. rewrite merge_sort_Permutation.
  by apply split_mem, lstrip_by_mem, rstrip_by_mem.
Qed.

(** X8.  Whatever the cell and its keys, the rewritten cell holds no closing
    brace, so line 188 raises [ValueError] on it: a table that has been
    converted cannot be converted once more. *)
Theorem rewrite_cell_not_citable tr keys field out :
  rewrite_cell tr keys field = Ok out →
  Py.mem_char "}" out = false ∧ citation_set out = Raise ValueError.
Proof.
  unfold rewrite_cell. destruct (replace_keys tr keys field) as [field'|]; [|done].
  cbn [mbind outcome_bind mret outcome_ret]. intros [= <-].
  assert (Py.mem_char "}" (normalise (strip_wrappers field')) = false) as H.
  { apply normalise_mem; [done|]. unfold strip_wrappers. apply replace_removes. }
  split; [done|]. apply index_None in H.
  unfold citation_set, cite_of_field.
  destruct (Py.index "{" _); cbn [orelse mbind outcome_bind]; [|done]. by rewrite H.
Qed.

Lemma rewrite_cell_not_citable_witness :
  Py.mem_char "}" "1, 2" = false ∧ citation_set "1, 2" = Raise ValueError.
Proof.
  apply (rewrite_cell_not_citable {[ "SmithA" := 1; "JonesB" := 2 ]}
           ["SmithA"; "JonesB"] " \citep{SmithA,JonesB} ").
  by vm_compute.
Defined.

(** ** What the footnote lists *)

Lemma join_contains sep x (l : list string) :
  x ∈ l → ∃ a b, Py.join sep l = a +:+ x +:+ b.
Proof.
  induction l as [|y l IH]; [by intros ?%elem_of_nil|].
  intros [->|Hx]%elem_of_cons.
  - destruct l as [|z l].
    + exists "", "". by rewrite append_nil_l, append_nil_r.
    + exists "", (sep +:+ Py.join sep (z :: l)). by rewrite join_cons_nonempty.
  - destruct (IH Hx) as (a & b & E). destruct l as [|z l]; [by apply elem_of_nil in Hx|].
    exists (y +:+ sep +:+ a), b. by rewrite join_cons_nonempty, E, !append_assoc.
Qed.

(** X9.  In whatever order the dictionary lists its entries, the footnote is
    the macro around a list of entries [(rank) \citet{key}] joined with [, ]
    that has one entry for every key of the dictionary, with the rank of the
    key, and no other entry; so every entry of the dictionary stands in the
    text of the footnote. *)
Theorem table_note_gen_lists (order : dict_enum) (tr : gmap string Z) :
  ∃ src,
    table_note_gen order tr =
      "\tablenotetext{}{{\bf References.} " +:+
        Py.join ", " ((λ x, "(" +:+ Py.str x.2 +:+ ") \citet{" +:+ x.1 +:+ "}") <$> src)
        +:+ "}" ∧
    length src = size tr ∧ NoDup src.*1 ∧
    (∀ k r, (k, r) ∈ src ↔ tr !! k = Some r) ∧
    (∀ k r, tr !! k = Some r →
       ∃ a b, table_note_gen order tr =
              a +:+ ("(" +:+ Py.str r +:+ ") \citet{" +:+ k +:+ "}") +:+ b).
Proof.
  exists (sorted_by_rank (items order tr)).
  assert (sorted_by_rank (items order tr) ≡ₚ map_to_list tr) as Hp
    by (unfold items; by rewrite sorted_by_rank_perm, enum_perm).
  split; [apply table_note_of_join|]. split; [|split; [|split]].
  - rewrite Hp. apply length_map_to_list.
  - rewrite Hp. apply NoDup_fst_map_to_list.
  - intros k r. rewrite Hp. apply elem_of_map_to_list.
  - intros k r Hk. unfold table_note_gen. rewrite table_note_of_join.
    destruct (join_contains ", " (note_item (k, r))
                (note_item <$> sorted_by_rank (items order tr))) as (a & b & E).
    { apply list_elem_of_fmap. exists (k, r). split; [done|].
      rewrite Hp. by apply elem_of_map_to_list. }
    rewrite E. exists ("\tablenotetext{}{{\bf References.} " +:+ a), (b +:+ "}").
    unfold note_item. cbn [fst snd]. by rewrite !append_assoc.
Qed.

(** ** No row between the markers *)

(** X10.  When the end marker comes right after the start marker, or before it,
    there is no row.  With the default column the run raises [IndexError]
    and writes nothing; with columns given, and a new file that takes what is
    written, it succeeds: the dictionary stays as it is and the new file
    holds the lines up to the start marker, the end marker line, an empty
    line, the footnote of the dictionary as it stands, and the lines after
    the end marker. *)
Theorem order_refs_no_rows f w start end_ :
  let table := readlines (input_text f w) in
  readable w f →
  Py.list_index startdata table = Some start →
  Py.list_index enddata table = Some end_ →
  (end_ ≤ start + 1)%nat →
  order_refs f None w = (Raise IndexError, after_input f w) ∧
  ∀ col, writes_well w (f +:+ "_new") →
    order_refs f (Some col) w =
    (Ok (),
     with_file (f +:+ "_new")
       (Py.concat (take (start + 1) table) +:+ enddata +:+ Py.nl +:+
        table_note_gen (dict_order (env w)) (table_refs w) +:+ Py.nl +:+
        Py.concat (drop (end_ + 1) table))
       (after_input f w)).
Proof.
  intros table Hrd Hs He Hle. pose proof Hrd as [Hn [s Hf]].
  assert (Py.list_slice table (start + 1) end_ = []) as Hdata.
  { unfold Py.list_slice. by replace (end_ - (start + 1))%nat with 0%nat by lia. }
  assert (∀ cols, locate table cols =
            col ← select_cols cols []; mret (start, end_, [], col, [])) as Hloc.
  { intros cols. unfold locate. rewrite Hs, He. cbn [orelse mbind outcome_bind].
    rewrite Hdata. cbn [fmap list_fmap]. by destruct (select_cols cols []). }
  split.
  - rewrite order_refs_eq, Hn, Hf. cbv zeta. fold table. by rewrite Hloc.
  - intros col Hw. rewrite order_refs_eq_well by done. cbv zeta. fold table. rewrite Hloc.
    cbn [select_cols mbind outcome_bind mret outcome_ret rewrite_rows fmap list_fmap].
    apply list_index_Some in He as [He _].
    f_equal. unfold with_file, output_text, create_ref_dict. cbn [foldl fst rows_text].
    rewrite He. cbn [default]. rewrite append_nil_l, !append_assoc.
    unfold after_input. by destruct (decide _).
Qed.

Lemma order_refs_no_rows_witness :
  let table := readlines (input_text "t.tex" no_rows_world) in
  order_refs "t.tex" None no_rows_world = (Raise IndexError, after_input "t.tex" no_rows_world) ∧
  ∀ col, writes_well no_rows_world ("t.tex" +:+ "_new") →
    order_refs "t.tex" (Some col) no_rows_world =
    (Ok (),
     with_file ("t.tex" +:+ "_new")
       (Py.concat (take (0 + 1) table) +:+ enddata +:+ Py.nl +:+
        table_note_gen (dict_order (env no_rows_world)) (table_refs no_rows_world)
        +:+ Py.nl +:+ Py.concat (drop (1 + 1) table))
       (after_input "t.tex" no_rows_world)).
Proof.
  apply (order_refs_no_rows "t.tex" no_rows_world 0 1);
    [split; [done|exists no_rows_text; by vm_compute]
    | by vm_compute | by vm_compute | lia].
Defined.

(** ** The exception of the first designated cell *)

Lemma mapM_first_Raise {A B} (g : A → outcome B) x (l : list A) e :
  g x = Raise e → mapM g (x :: l) = Raise e.
Proof. intros H. by rewrite mapM_cons, H. Qed.

(** X11.  With a file that can be read and both markers there, the first designated cell of the
    first row decides how the run ends when it is not acceptable: a float as
    column gives [TypeError], a column outside the row [IndexError], a cell
    without an opening or without a closing brace [ValueError].  In each case
    nothing is written and the dictionary stays as it is. *)
Theorem order_refs_first_cell f w start end_ row0 rest c more :
  let table := readlines (input_text f w) in
  readable w f →
  Py.list_index startdata table = Some start →
  Py.list_index enddata table = Some end_ →
  row_split <$> Py.list_slice table (start + 1) end_ = row0 :: rest →
  ((∃ t, c = PyFloat t) →
     order_refs f (Some (c :: more)) w = (Raise TypeError, after_input f w)) ∧
  (∀ i, c = PyInt i → Py.norm_index (length row0) i = None →
     order_refs f (Some (c :: more)) w = (Raise IndexError, after_input f w)) ∧
  (∀ field, getitem_val row0 c = Ok field →
     Py.mem_char "{" field = false ∨ Py.mem_char "}" field = false →
     order_refs f (Some (c :: more)) w = (Raise ValueError, after_input f w)).
Proof.
  intros table [Hn [s Hf]] Hs He Hdata.
  assert (∀ e, cite_of row0 c = Raise e →
            order_refs f (Some (c :: more)) w = (Raise e, after_input f w)) as H.
  { intros e Hc. rewrite order_refs_eq, Hn, Hf. cbv zeta. fold table.
    unfold locate. rewrite Hs, He. cbn [orelse mbind outcome_bind select_cols mret outcome_ret].
    rewrite Hdata. unfold extract_cites.
    by rewrite (mapM_first_Raise _ row0 rest e) by (by apply mapM_first_Raise). }
  split; [|split].
  - intros [t ->]. by apply H.
  - intros i -> Hi. apply H. unfold cite_of. cbn. unfold getitem. by rewrite Hi.
  - intros field Hfield Hlack. apply H. unfold cite_of. rewrite Hfield. cbn.
    unfold cite_of_field. rewrite <- !index_None in Hlack.
    destruct Hlack as [-> | ->]; [done|]. by destruct (Py.index "{" field).
Qed.

Lemma order_refs_first_cell_witness :
  order_refs "t.tex" (Some [PyFloat "2.0"]) demo_world
    = (Raise TypeError, after_input "t.tex" demo_world) ∧
  order_refs "t.tex" (Some [PyInt 7; PyInt 1]) demo_world
    = (Raise IndexError, after_input "t.tex" demo_world) ∧
  order_refs "t.tex" (Some [PyInt 0]) demo_world
    = (Raise ValueError, after_input "t.tex" demo_world).
Proof.
  assert (readable demo_world "t.tex") as Hrd
    by (split; [done|exists demo_text; by vm_compute]).
  pose proof (λ c more, order_refs_first_cell "t.tex" demo_world 1 5
           ["HD 1 "; " \citet{SmithA} "]
           [ ["HD 2 "; " \citet{JonesB} "]; ["HD 3 "; " \citet{SmithA}"] ] c more
           Hrd eq_refl eq_refl eq_refl) as H.
  split; [|split].
  - apply (proj1 (H (PyFloat "2.0") [])). by exists "2.0".
  - by apply (proj1 (proj2 (H (PyInt 7) [PyInt 1])) 7).
  - apply (proj2 (proj2 (H (PyInt 0) [])) "HD 1 "); [done|by left].
Defined.

(** ** Stripping the end of a row (line 180) *)

Lemma rstrip_by_absorb (p q : ascii → bool) (s : string) :
  (∀ c, q c = true → p c = true) →
  Py.rstrip_by p (Py.rstrip_by q s) = Py.rstrip_by p s.
Proof.
  intros Hqp. induction s as [|c s IH]; [done|]. cbn [Py.rstrip_by].
  destruct (Py.rstrip_by q s) as [|d r] eqn:E.
  - cbn [Py.rstrip_by] in IH. rewrite <- IH.
    destruct (q c) eqn:Hq; [by rewrite (Hqp c Hq)|done].
  - cbn [Py.rstrip_by] in *. by rewrite IH.
Qed.

(** X12.  The line feed is white space, so [rstrip('\n')] before [rstrip()] changes
    nothing.  A row that ends in backslashes, followed by any white space,
    is split as its text before the backslashes, blanks before them
    included; the continuation token is found although blanks follow it. *)
Theorem row_split_continuation (x body bs ws : string) :
  (row_split x = Py.split "&" (Py.rstrip_chars "\\" (Py.rstrip x))) ∧
  (Py.rstrip_chars "\\" body = body → bs ≠ "" →
   all_chars (λ c, Ascii.eqb c "\") bs = true → all_chars Py.isspace ws = true →
   row_split (body +:+ bs +:+ ws) = Py.split "&" body).
Proof.
  assert (∀ y, row_split y = Py.split "&" (Py.rstrip_chars "\\" (Py.rstrip y))) as H.
  { intros y. unfold row_split, Py.rstrip, Py.rstrip_chars.
    rewrite (rstrip_by_absorb Py.isspace); [done|].
    intros c Hc. unfold Py.nl in Hc. cbn [Py.mem_char] in Hc. rewrite orb_false_r in Hc.
    by apply Ascii.eqb_eq in Hc as ->. }
  split; [apply H|]. intros Hbody Hbs Hback Hws. rewrite H. f_equal.
  unfold Py.rstrip, Py.rstrip_chars in *.
  assert (all_chars (λ c, negb (Py.isspace c)) bs = true) as Hns.
  { eapply all_chars_impl; [|exact Hback]. by intros c ->%Ascii.eqb_eq. }
  rewrite <- append_assoc, rstrip_by_app_drop by (by apply rstrip_by_all).
  rewrite rstrip_by_app_keep by (rewrite rstrip_by_none by done; done).
  rewrite (rstrip_by_none Py.isspace) by done.
  rewrite rstrip_by_app_drop; [done|]. apply rstrip_by_all.
  eapply all_chars_impl; [|exact Hback]. intros c ->%Ascii.eqb_eq. done.
Qed.

Lemma row_split_continuation_witness :
  row_split ("HD 1 & \citet{SmithA} " +:+ "\\" +:+ ("  " +:+ Py.nl))
  = Py.split "&" "HD 1 & \citet{SmithA} ".
Proof.
  by apply (proj2 (row_split_continuation "" "HD 1 & \citet{SmithA} " "\\" ("  " +:+ Py.nl))).
Defined.

(** ** The default column and the index -1 *)

Lemma last_index_same {A} (row : list A) (n : nat) :
  length row = n → n ≠ 0%nat →
  getitem_val row (PyInt (Z.of_nat n - 1)) = getitem_val row (PyInt (-1)) ∧
  ∀ y, setitem_val row (PyInt (Z.of_nat n - 1)) y = setitem_val row (PyInt (-1)) y.
Proof.
  intros Hlen Hn. cbn. unfold getitem, setitem, Py.norm_index. rewrite Hlen.
  rewrite (decide_True (P := 0 ≤ Z.of_nat n - 1 < Z.of_nat n)) by lia.
  rewrite (decide_False (P := 0 ≤ -1 < Z.of_nat n)) by lia.
  rewrite (decide_True (P := - Z.of_nat n ≤ -1 < 0)) by lia.
  by replace (Z.of_nat n + -1) with (Z.of_nat n - 1) by lia.
Qed.

Lemma mapM_ext_Forall {A B} (g h : A → outcome B) (l : list A) :
  Forall (λ x, g x = h x) l → mapM g l = mapM h l.
Proof.
  induction 1 as [|x l Hx _ IH]; [done|]. by rewrite !mapM_cons, Hx, IH.
Qed.

Lemma rewrite_rows_last tr refs (data : list (list string)) (n : nat) :
  n ≠ 0%nat → Forall (λ row, length row = n) data →
  rewrite_rows tr [PyInt (Z.of_nat n - 1)] refs data = rewrite_rows tr [PyInt (-1)] refs data.
Proof.
  intros Hn Hdata. revert refs. induction Hdata as [|row data Hrow _ IH]; intros refs; [done|].
  cbn [rewrite_rows rewrite_row]. rewrite IH.
  destruct (last_index_same row n Hrow Hn) as [Hget Hset]. rewrite Hget.
  destruct (head refs) as [refs_i|]; [|done]. cbn [orelse mbind outcome_bind].
  destruct (head refs_i) as [keys|]; [|done]. cbn [orelse mbind outcome_bind].
  destruct (getitem_val row (PyInt (-1))) as [field|]; [|done]. cbn [mbind outcome_bind].
  destruct (rewrite_cell tr keys field) as [out|]; [|done]. cbn [mbind outcome_bind].
  by rewrite Hset.
Qed.

(** X13.  On a table whose rows all have as many fields as the first one, the
    default column and the column [-1] give the same run.  (Where the rows
    differ in length, the default takes the position of the first row's last
    field in every row, while [-1] takes each row's own last field.) *)
Theorem order_refs_default_is_last f w start end_ row0 rest :
  let table := readlines (input_text f w) in
  Py.list_index startdata table = Some start →
  Py.list_index enddata table = Some end_ →
  row_split <$> Py.list_slice table (start + 1) end_ = row0 :: rest →
  Forall (λ row, length row = length row0) rest →
  order_refs f None w = order_refs f (Some [PyInt (-1)]) w.
Proof.
  intros table Hs He Hdata Hrest.
  assert (length row0 ≠ 0%nat) as Hn.
  { apply fmap_cons_inv in Hdata as (line & lines & -> & _ & _).
    intros E. apply length_zero_iff_nil in E. by apply split_nonempty in E. }
  assert (Forall (λ row, length row = length row0) (row0 :: rest)) as Hall
    by (by constructor).
  assert (select_cols None (row0 :: rest) = Ok [PyInt (Z.of_nat (length row0) - 1)])
    as Hsel by done.
  assert (extract_cites [PyInt (Z.of_nat (length row0) - 1)] (row0 :: rest)
          = extract_cites [PyInt (-1)] (row0 :: rest)) as Hext.
  { unfold extract_cites. apply mapM_ext_Forall. eapply Forall_impl; [exact Hall|].
    intros row Hrow. cbn beta. rewrite !mapM_cons. unfold cite_of.
    by rewrite (proj1 (last_index_same row _ Hrow Hn)). }
  rewrite !order_refs_eq. destruct (has_nul f); [done|].
  destruct (files w !! f); [|done]. cbv zeta. fold table.
  unfold locate. rewrite Hs, He. cbn [orelse mbind outcome_bind].
  rewrite Hdata, Hsel. cbn [select_cols mbind outcome_bind mret outcome_ret].
  rewrite Hext. destruct (extract_cites [PyInt (-1)] (row0 :: rest)) as [cites|]; [|done].
  cbn [mbind outcome_bind mret outcome_ret].
  by rewrite (rewrite_rows_last _ _ _ _ Hn Hall).
Qed.

Lemma order_refs_default_is_last_witness :
  order_refs "t.tex" None demo_world = order_refs "t.tex" (Some [PyInt (-1)]) demo_world.
Proof.
  apply (order_refs_default_is_last "t.tex" demo_world 1 5
           ["HD 1 "; " \citet{SmithA} "]
           [ ["HD 2 "; " \citet{JonesB} "]; ["HD 3 "; " \citet{SmithA}"] ]);
    [by vm_compute | by vm_compute | by vm_compute | by repeat constructor].
Defined.

(** ** A run that raises *)

(** X14.  A run that raises has changed neither the files nor the dictionary,
    with one exception: when it is [write_to_file] that raises, which it does
    with [IOError] and only where the new file does not take what is written,
    the dictionary has the keys of the table already, and no file but the new
    one has changed.  On the table of the examples, where no file can be
    opened for writing, the run raises [IOError], leaves the files as they
    are, and the dictionary has the two keys. *)
Theorem order_refs_raise_keeps_state f cols w :
  let run := order_refs f cols w in
  (∀ e, run.1 = Raise e →
     (files run.2 = files w ∧ table_refs run.2 = table_refs w) ∨
     (e = IOError ∧ ¬ writes_well w (f +:+ "_new") ∧
      ∃ start end_ data col refs,
        locate (readlines (input_text f w)) cols = Ok (start, end_, data, col, refs) ∧
        table_refs run.2 = create_ref_dict refs (table_refs w) ∧
        ∀ g, g ≠ f +:+ "_new" → files run.2 !! g = files w !! g)) ∧
  (let run := order_refs "t.tex" None read_only_world in
   run.1 = Raise IOError ∧ files run.2 = files read_only_world ∧
   table_refs read_only_world = ∅ ∧
   table_refs run.2 = {[ "SmithA" := 1; "JonesB" := 2 ]}).
Proof.
  intros run. split; [|by vm_compute]. intros e. subst run.
  destruct (order_refs_cases f cols w)
    as [(_ & ->)|[(_ & _ & ->)|[(_ & e' & _ & ->)|
        (Hrd & start & end_ & data & col & refs & data' & Hl & _ & Hs & He & ->)]]].
  - by left.
  - by left.
  - left. cbn [snd]. by rewrite after_input_files, after_input_table_refs.
  - destruct (write_to_file_cases f (readlines (input_text f w)) (Py.join " & " <$> data')
                (table_note_gen (dict_order (env w)) (create_ref_dict refs (table_refs w)))
                start end_
                (World (files w) (stdin (after_input f w))
                   (create_ref_dict refs (table_refs w)) (env w)) (proj1 Hrd) Hs He)
      as [Hw|(w' & Hw & (_ & Ht & _ & Hfiles) & Hbad)]; rewrite Hw; [done|].
    cbn [fst snd]. intros [= <-]. right. split; [done|]. split; [done|].
    by exists start, end_, data, col, refs.
Qed.

Lemma order_refs_raise_keeps_state_witness :
  (files (order_refs "t.tex" (Some [PyInt 0]) demo_world).2 = files demo_world ∧
   table_refs (order_refs "t.tex" (Some [PyInt 0]) demo_world).2 = table_refs demo_world) ∨
  (ValueError = IOError ∧ ¬ writes_well demo_world ("t.tex" +:+ "_new") ∧
   ∃ start end_ data col refs,
     locate (readlines (input_text "t.tex" demo_world)) (Some [PyInt 0])
       = Ok (start, end_, data, col, refs) ∧
     table_refs (order_refs "t.tex" (Some [PyInt 0]) demo_world).2
       = create_ref_dict refs (table_refs demo_world) ∧
     ∀ g, g ≠ "t.tex" +:+ "_new" →
       files (order_refs "t.tex" (Some [PyInt 0]) demo_world).2 !! g
       = files demo_world !! g).
Proof.
  by apply (proj1 (order_refs_raise_keeps_state "t.tex" (Some [PyInt 0]) demo_world)
             ValueError).
Defined.

(** ** Entries of equal rank *)

Lemma insert_by_rank_filter (r : Z) x l :
  filter (λ y, y.2 = r) (insert_by_rank x l) = filter (λ y, y.2 = r) (x :: l).
Proof.
  induction l as [|y l IH]; [done|]. cbn [insert_by_rank].
  destruct (decide (rank_le x y)) as [Hxy|Hxy]; [done|].
  rewrite filter_cons, IH, !filter_cons. unfold rank_le in Hxy.
  destruct (decide (y.2 = r)), (decide (x.2 = r)); try done. lia.
Qed.

(** X15.  [sorted] is stable: the footnote lists the entries of one rank in the
    order in which the dictionary lists them.  After a later call has given
    a rank a second time, the footnote therefore depends on that order: for
    SmithA and LeeC at rank 1 and JonesB at rank 2, one order writes SmithA
    first and its reverse writes LeeC first. *)
Theorem sorted_by_rank_stable :
  (∀ (l : list (string * Z)) (r : Z),
     filter (λ y, y.2 = r) (sorted_by_rank l) = filter (λ y, y.2 = r) l) ∧
  (let tied : gmap string Z := {[ "SmithA" := 1; "JonesB" := 2; "LeeC" := 1 ]} in
   map_order tied = [("SmithA", 1); ("JonesB", 2); ("LeeC", 1)] ∧
   table_note_gen map_order tied =
     "\tablenotetext{}{{\bf References.} (1) \citet{SmithA}, (1) \citet{LeeC}, (2) \citet{JonesB}}" ∧
   reverse_order tied = [("LeeC", 1); ("JonesB", 2); ("SmithA", 1)] ∧
   table_note_gen reverse_order tied =
     "\tablenotetext{}{{\bf References.} (1) \citet{LeeC}, (1) \citet{SmithA}, (2) \citet{JonesB}}").
Proof.
  split; [|by vm_compute].
  intros l r. induction l as [|x l IH]; [done|].
  cbn [sorted_by_rank foldr]. rewrite insert_by_rank_filter, !filter_cons.
  fold (sorted_by_rank l). by rewrite IH.
Qed.
